(** * NextPWA: the notification schedule of the service worker and the push relay

    A shallow embedding of [public/sw.js] (the background worker that owns the
    reminder schedule) and of [backend-example.js] (the Express relay that
    stores push subscriptions and drives them with cron jobs), followed by the
    properties of the schedule and of the subscription store.  The other
    listeners of the worker, the messaging worker, the earlier worker and the
    page's token functions are embedded as well, with what they keep.

    Conventions of the embedding.
    - JavaScript numbers that the program uses as integers (minutes,
      milliseconds since the epoch, timer handles) are [Z] or [positive];
      the arithmetic of the source stays below 2^53, where it is exact.
    - A module-level [let x = null] that later holds a number is an
      [option Z]: [None] is [null].
    - [Date.now()] is an input: every call site receives its own reading.
      In the worker, where readings are compared and tested for truthiness,
      a reading is a [positive] (milliseconds since the epoch).
    - Calls into the platform (showing a notification, posting on a message
      port, focusing a window, sending through FCM, answering an HTTP request)
      are recorded, in order, in the list of effects a handler returns.
    - [console.log] and [console.error] lines are not recorded. *)

From Stdlib Require Import ZArith Lia.
From stdpp Require Import gmap strings list fin_maps pretty.

(* ===================================================================== *)
(** ** The service worker, [public/sw.js] *)
(* ===================================================================== *)

Module ServiceWorker.

Local Open Scope Z_scope.

(** The options object of [showNotification]. *)
Record Notification := {
  title : string;
  body : string;
  icon : string;
  badge : string;
  tag : string;
  requireInteraction : bool;
  vibrate : list Z
}.

(** The reply posted for [CHECK_SCHEDULE]. *)
Record ScheduleReply := {
  interval : option Z;
  nextTime : option Z
}.

(** A window client as [clients.matchAll] returns it: its [url], and whether
    the object has a [focus] method (the test ["focus" in client]). *)
Record Client := {
  url : string;
  has_focus : bool
}.

Definition Port := nat.

(** A reading of [Date.now()]. *)
Definition Time := positive.

Inductive Effect :=
| ShowNotification (n : Notification)
| PostMessage (port : Port) (reply : ScheduleReply)
| CloseNotification
| Focus (c : Client)
| OpenWindow (target : string).

(** The module-level variables of the worker, with the part of the platform
    they refer to: [timers] are the live [setInterval] timers, each with the
    [intervalMs] its callback captured, and [next_timer] is the handle the
    next [setInterval] returns. *)
Record Worker := {
  notificationInterval : option Z;
  nextNotificationTime : option Z;
  checkInterval : option positive;
  timers : gmap positive Z;
  next_timer : positive
}.

(** The worker as the script leaves it when it has been evaluated. *)
Definition init : Worker :=
  {| notificationInterval := None;
     nextNotificationTime := None;
     checkInterval := None;
     timers := ∅;
     next_timer := 1%positive |}.

(** JavaScript's truthiness of a variable that holds a number or [null]. *)
Definition truthy (v : option Z) : bool :=
  match v with
  | Some n => negb (n =? 0)
  | None => false
  end.

(** [ToNumber]: [null] compares as 0. *)
Definition to_number (v : option Z) : Z := default 0 v.

Definition set_schedule (i t : option Z) (w : Worker) : Worker :=
  {| notificationInterval := i;
     nextNotificationTime := t;
     checkInterval := checkInterval w;
     timers := timers w;
     next_timer := next_timer w |}.

(** [clearInterval(checkInterval); checkInterval = null] *)
Definition clearInterval (id : positive) (w : Worker) : Worker :=
  {| notificationInterval := notificationInterval w;
     nextNotificationTime := nextNotificationTime w;
     checkInterval := None;
     timers := delete id (timers w);
     next_timer := next_timer w |}.

(** [checkInterval = setInterval(() => checkAndSendNotification(intervalMs), 10000)] *)
Definition setInterval (intervalMs : Z) (w : Worker) : Worker :=
  {| notificationInterval := notificationInterval w;
     nextNotificationTime := nextNotificationTime w;
     checkInterval := Some (next_timer w);
     timers := <[next_timer w := intervalMs]> (timers w);
     next_timer := Pos.succ (next_timer w) |}.

Definition reminder : Notification :=
  {| title := "Reminder Notification";
     body := "This is your scheduled reminder!";
     icon := "/icon-192x192.jpg";
     badge := "/icon-192x192.jpg";
     tag := "reminder";
     requireInteraction := false;
     vibrate := [200; 100; 200] |}.

Definition showNotification : Effect := ShowNotification reminder.

Definition stopNotificationSchedule (w : Worker) : Worker :=
  let w1 := match checkInterval w with
            | Some id => clearInterval id w
            | None => w
            end in
  set_schedule None None w1.

(** [Number.MAX_SAFE_INTEGER], 2^53 - 1: sums and products of integers are
    exact in JavaScript as long as they do not exceed it.  The arithmetic of
    the worker below is that of [Z]; it is the code's where its results stay
    within this bound, and the theorems on exact deadlines assume it. *)
Definition MAX_SAFE_INTEGER : Z := 9007199254740991.

(** [t1] and [t2] are the two readings of [Date.now()], in program order. *)
Definition startNotificationSchedule (intervalMinutes : Z) (t1 t2 : Time) (w : Worker)
  : Worker * list Effect :=
  let w := stopNotificationSchedule w in
  let w := set_schedule (Some intervalMinutes) (nextNotificationTime w) w in
  let intervalMs := intervalMinutes * 60 * 1000 in
  let w := set_schedule (notificationInterval w) (Some (Z.pos t1)) w in
  let out := [showNotification] in
  let w := set_schedule (notificationInterval w) (Some (Z.pos t2 + intervalMs)) w in
  (setInterval intervalMs w, out).

Definition checkAndSendNotification (intervalMs : Z) (now : Time) (w : Worker)
  : Worker * list Effect :=
  if negb (truthy (nextNotificationTime w)) || negb (truthy (notificationInterval w))
  then (w, [])
  else if to_number (nextNotificationTime w) <=? Z.pos now
       then (set_schedule (notificationInterval w) (Some (Z.pos now + intervalMs)) w,
             [showNotification])
       else (w, []).

(** One wake-up of the timer [id], 10 seconds after the previous one: the
    callback runs when the timer is live, with the [intervalMs] it captured. *)
Definition poll_tick (id : positive) (now : Time) (w : Worker) : Worker * list Effect :=
  match timers w !! id with
  | Some intervalMs => checkAndSendNotification intervalMs now w
  | None => (w, [])
  end.

(** [event.data] of a message event: the three messages of the page, and
    anything else (no data, or another [type]).  The page sends
    [intervalMinutes] as an integer number ([Number.parseInt] of the selected
    interval). *)
Inductive Message :=
| START_NOTIFICATIONS (intervalMinutes : Z)
| STOP_NOTIFICATIONS
| CHECK_SCHEDULE
| OtherMessage.

Inductive Completion := Completed | TypeError.

(** The [message] listener.  [ports] is [event.ports]; reading [postMessage]
    off a missing [event.ports[0]] throws. *)
Definition on_message (m : Message) (ports : list Port) (t1 t2 : Time) (w : Worker)
  : Worker * list Effect * Completion :=
  match m with
  | START_NOTIFICATIONS intervalMinutes =>
      (startNotificationSchedule intervalMinutes t1 t2 w, Completed)
  | STOP_NOTIFICATIONS => (stopNotificationSchedule w, [], Completed)
  | CHECK_SCHEDULE =>
      match ports with
      | p :: _ =>
          (w, [PostMessage p {| interval := notificationInterval w;
                                nextTime := nextNotificationTime w |}], Completed)
      | [] => (w, [], TypeError)
      end
  | OtherMessage => (w, [], Completed)
  end.

(** The loop of the [notificationclick] listener over [clientList]. *)
Fixpoint first_focusable (clientList : list Client) : option Client :=
  match clientList with
  | [] => None
  | client :: rest =>
      if String.eqb (url client) "/" && has_focus client
      then Some client
      else first_focusable rest
  end.

(** The [notificationclick] listener: [clientList] is what
    [clients.matchAll({type: "window", includeUncontrolled: true})] resolves
    to, [openWindow] whether [clients.openWindow] exists. *)
Definition on_notificationclick (clientList : list Client) (openWindow : bool)
  : list Effect :=
  CloseNotification ::
  match first_focusable clientList with
  | Some client => [Focus client]
  | None => if openWindow then [OpenWindow "/"] else []
  end.

(** What happens to the worker: a message arrives, or a timer wakes up. *)
Inductive Event :=
| MessageEvent (m : Message) (ports : list Port) (t1 t2 : Time)
| TimerEvent (id : positive) (now : Time).

Definition handle (e : Event) (w : Worker) : Worker * list Effect :=
  match e with
  | MessageEvent m ports t1 t2 => fst (on_message m ports t1 t2 w)
  | TimerEvent id now => poll_tick id now w
  end.

(** The states of the worker after any sequence of events. *)
Inductive reachable : Worker → Prop :=
| reachable_init : reachable init
| reachable_handle e w : reachable w → reachable (fst (handle e w)).

(** The poll loop and the schedule agree: no timer and no schedule, or one
    timer that captured the schedule's interval in milliseconds, and a
    deadline that is a clock reading plus that interval. *)
Definition coherent (w : Worker) : Prop :=
  match checkInterval w with
  | Some id =>
      ∃ i (c : Time),
        notificationInterval w = Some i
        ∧ nextNotificationTime w = Some (Z.pos c + i * 60 * 1000)
        ∧ timers w = {[ id := i * 60 * 1000 ]}
  | None =>
      notificationInterval w = None
      ∧ nextNotificationTime w = None
      ∧ timers w = ∅
  end.

(** Running a sequence of events, the effects in order. *)
Fixpoint run (events : list Event) (w : Worker) : Worker * list Effect :=
  match events with
  | [] => (w, [])
  | e :: rest =>
      let r1 := handle e w in
      let r2 := run rest (fst r1) in
      (fst r2, snd r1 ++ snd r2)
  end.

Definition is_start (e : Event) : bool :=
  match e with
  | MessageEvent (START_NOTIFICATIONS _) _ _ _ => true
  | _ => false
  end.

(** A wake-up of a timer whose clock reading is less than [t]. *)
Definition timer_before (t : Z) (e : Event) : bool :=
  match e with
  | TimerEvent _ now => Z.pos now <? t
  | MessageEvent _ _ _ _ => false
  end.

Definition is_show (eff : Effect) : bool :=
  match eff with
  | ShowNotification _ => true
  | _ => false
  end.

(** The [periodicsync] listener; it is registered only when
    ["periodicSync" in self.registration], which is [supported]. *)
Definition on_periodicsync (supported : bool) (sync_tag : string) (w : Worker)
  : list Effect :=
  if supported
  then if String.eqb sync_tag "reminder-sync" && truthy (notificationInterval w)
       then [showNotification]
       else []
  else [].

(** The properties of [data.notification] that the [push] listener spreads
    over its defaults: a field is [None] when the object does not have it. *)
Record Overrides := {
  o_title : option string;
  o_body : option string;
  o_icon : option string;
  o_badge : option string;
  o_tag : option string;
  o_requireInteraction : option bool;
  o_vibrate : option (list Z)
}.

(** What [event.data.json()] does: it throws when the data is not JSON;
    otherwise it returns [null], an object whose [notification] is an object
    ([Some]) or is falsy or missing ([None]), or another value (a number, a
    string, a boolean, an array), on which [notification] is [undefined]. *)
Inductive PushJson :=
| NotJson
| JsonNull
| JsonObject (notification : option Overrides)
| JsonOther.

(** [event.data] of a push event, when there is one: what [json()] and
    [text()] give. *)
Record PushData := {
  push_json : PushJson;
  push_text : string
}.

(** [{...notificationData, ...data.notification}] *)
Definition spread (notificationData : Notification) (o : Overrides) : Notification :=
  {| title := default (title notificationData) (o_title o);
     body := default (body notificationData) (o_body o);
     icon := default (icon notificationData) (o_icon o);
     badge := default (badge notificationData) (o_badge o);
     tag := default (tag notificationData) (o_tag o);
     requireInteraction :=
       default (requireInteraction notificationData) (o_requireInteraction o);
     vibrate := default (vibrate notificationData) (o_vibrate o) |}.

(** [notificationData.body = text] *)
Definition set_body (text : string) (notificationData : Notification) : Notification :=
  {| title := title notificationData;
     body := text;
     icon := icon notificationData;
     badge := badge notificationData;
     tag := tag notificationData;
     requireInteraction := requireInteraction notificationData;
     vibrate := vibrate notificationData |}.

(** The [catch] branch of the [push] listener. *)
Definition push_text_fallback (d : PushData) (notificationData : Notification)
  : Notification :=
  if String.eqb (push_text d) ""
  then notificationData
  else set_body (push_text d) notificationData.

(** The [push] listener.  Its initial [notificationData] has the values of
    [reminder].  Reading [notification] off [null] throws inside the [try],
    so [null] takes the [catch] branch like data that is not JSON. *)
Definition on_push (data : option PushData) : list Effect :=
  let notificationData := reminder in
  let notificationData :=
    match data with
    | None => notificationData
    | Some d =>
        match push_json d with
        | JsonObject (Some o) => spread notificationData o
        | JsonObject None => notificationData
        | JsonOther => notificationData
        | NotJson => push_text_fallback d notificationData
        | JsonNull => push_text_fallback d notificationData
        end
    end in
  [ShowNotification notificationData].

Definition CACHE_NAME : string := "notify-me-v1".

(** The [activate] listener on the cache storage, a map from cache names to
    caches: [caches.keys()], then [caches.delete] of every name that is not
    [CACHE_NAME]. *)
Definition on_activate {C : Type} (caches : gmap string C) : gmap string C :=
  foldr (λ cacheName cs,
           if bool_decide (cacheName ≠ CACHE_NAME) then delete cacheName cs else cs)
        caches (map fst (map_to_list caches)).

End ServiceWorker.


(* ===================================================================== *)
(** ** The push relay, [backend-example.js] *)
(* ===================================================================== *)

Module Relay.

Local Open Scope Z_scope.

(** A value of the [subscriptions] map. *)
Record Subscription := {
  intervalMinutes : Z;
  lastSent : Z
}.

(** A task object made by [cron.schedule]: its expression, the [token] and
    [intervalMinutes] its callback captured, and whether it is still
    scheduled ([stop] clears that). *)
Record Job := {
  job_expression : string;
  job_token : string;
  job_interval : Z;
  job_running : bool
}.

(** The state of the relay process.  [jobs] holds every task object made so
    far, a task's handle being its position; [tasks] is the part of
    [cron.getTasks()] that the program writes, from a token to the handle of
    the task stored for it. *)
Record Server := {
  subscriptions : gmap string Subscription;
  tasks : gmap string nat;
  jobs : list Job
}.

Definition init : Server :=
  {| subscriptions := ∅; tasks := ∅; jobs := [] |}.

(** The message handed to [admin.messaging().send]. *)
Record FcmMessage := {
  msg_title : string;
  msg_body : string;
  msg_type : string;
  msg_interval : string;
  msg_timestamp : string;
  msg_token : string;
  msg_icon : string;
  msg_badge : string;
  msg_vibrate : list Z
}.

(** The JSON bodies the relay answers with. *)
Inductive Json :=
| JError (error : string)
| JSuccess (success : bool) (message : string)
| JHealth (status : string) (count : nat) (timestamp : Z).

Record Response := {
  status : nat;
  json : Json
}.

Inductive Effect :=
| FcmSend (m : FcmMessage)
| HttpResponse (r : Response).

(** [req.body] of the two POST routes, as [express.json()] parsed it: a field
    is [None] when it is absent or [null].  The page sends [intervalMinutes]
    as a number. *)
Record Body := {
  req_token : option string;
  req_intervalMinutes : option Z
}.

(** How [await admin.messaging().send(message)] settles: it resolves with a
    message id, or rejects with an error that may carry a [code]. *)
Inductive SendResult :=
| Resolved (response : string)
| Rejected (code : option string).

Inductive Completion := Returned | Threw.

(** Truthiness of a string-or-missing and of a number-or-missing field. *)
Definition truthy_string (v : option string) : bool :=
  match v with
  | Some s => negb (String.eqb s "")
  | None => false
  end.

Definition truthy_number (v : option Z) : bool :=
  match v with
  | Some n => negb (n =? 0)
  | None => false
  end.

(** [parseInt] of an integer number is that number, for a number below
    10^21 in magnitude: such a number is written in decimal digits, without
    an exponent, which is also what [toString] below relies on. *)
Definition parseInt (n : Z) : Z := n.

(** A number in a template literal, and [toString()] of a number. *)
Definition toString (n : Z) : string := pretty n.

Definition set_subscriptions (m : gmap string Subscription) (s : Server) : Server :=
  {| subscriptions := m; tasks := tasks s; jobs := jobs s |}.

Definition stopped (j : Job) : Job :=
  {| job_expression := job_expression j;
     job_token := job_token j;
     job_interval := job_interval j;
     job_running := false |}.

(** [existingJob.stop()] on the task with handle [h]. *)
Definition stop_job (h : nat) (s : Server) : Server :=
  {| subscriptions := subscriptions s;
     tasks := tasks s;
     jobs := alter stopped h (jobs s) |}.

Definition cronExpression (intervalMinutes : Z) : string :=
  if intervalMinutes =? 1
  then "* * * * *"
  else "*/" +:+ toString intervalMinutes +:+ " * * * *".

Definition ok (message : string) : Response :=
  {| status := 200; json := JSuccess true message |}.

Definition failure (code : nat) (error : string) : Response :=
  {| status := code; json := JError error |}.

Definition plural (intervalMinutes : Z) : string :=
  if 1 <? intervalMinutes then "s" else "".

(** The [message] object of [sendNotification]; [now] is the reading of
    [Date.now()] for its timestamp. *)
Definition message_of (token : string) (intervalMinutes now : Z) : FcmMessage :=
  {| msg_title := "Reminder Notification";
     msg_body := "This is your scheduled reminder! (Every "
                   +:+ toString intervalMinutes +:+ " minute"
                   +:+ plural intervalMinutes +:+ ")";
     msg_type := "reminder";
     msg_interval := toString intervalMinutes;
     msg_timestamp := toString now;
     msg_token := token;
     msg_icon := "/icon-192x192.jpg";
     msg_badge := "/icon-192x192.jpg";
     msg_vibrate := [200; 100; 200] |}.

Definition invalid_token (code : option string) : bool :=
  match code with
  | Some c =>
      String.eqb c "messaging/invalid-registration-token"
      || String.eqb c "messaging/registration-token-not-registered"
  | None => false
  end.

(** The part of [sendNotification] after the [await]: it runs on the state
    the relay has when the send settles.  [now] is the reading of
    [Date.now()] for [lastSent]. *)
Definition settle (token : string) (r : SendResult) (now : Z) (s : Server) : Server :=
  match r with
  | Resolved _ =>
      match subscriptions s !! token with
      | Some subscription =>
          set_subscriptions
            (<[token := {| intervalMinutes := intervalMinutes subscription;
                           lastSent := now |}]> (subscriptions s)) s
      | None => s
      end
  | Rejected code =>
      if invalid_token code
      then set_subscriptions (delete token (subscriptions s)) s
      else s
  end.

(** [sendNotification] with nothing run between the send and its settling. *)
Definition sendNotification (token : string) (intervalMinutes t_message : Z)
    (r : SendResult) (t_settle : Z) (s : Server) : Server * list Effect :=
  (settle token r t_settle s, [FcmSend (message_of token intervalMinutes t_message)]).

(** One firing of the cron task [h]: a task that is scheduled runs its
    callback, [sendNotification] on what it captured. *)
Definition cron_fire (h : nat) (t_message : Z) (r : SendResult) (t_settle : Z)
    (s : Server) : Server * list Effect :=
  match jobs s !! h with
  | Some j =>
      if job_running j
      then sendNotification (job_token j) (job_interval j) t_message r t_settle s
      else (s, [])
  | None => (s, [])
  end.

(** [POST /api/unsubscribe] *)
Definition unsubscribe (b : Body) (s : Server) : Server * list Effect :=
  if negb (truthy_string (req_token b))
  then (s, [HttpResponse (failure 400 "Token is required")])
  else
    match req_token b with
    | Some token =>
        (set_subscriptions (delete token (subscriptions s)) s,
         [HttpResponse (ok "Unsubscribed successfully")])
    | None => (s, [HttpResponse (failure 400 "Token is required")])
    end.

(** [GET /health]; [now] stands for the ISO string of [new Date()]. *)
Definition health (now : Z) (s : Server) : Server * list Effect :=
  (s, [HttpResponse {| status := 200;
                       json := JHealth "ok" (size (subscriptions s)) now |}]).

(** The count a [GET /health] reports. *)
Definition health_count (s : Server) : nat := size (subscriptions s).

(** What every state of the relay satisfies: a stored token is a non-empty
    string, and the handle stored for a token is that of a task whose
    callback captured this token. *)
Definition well_formed (s : Server) : Prop :=
  (∀ token, is_Some (subscriptions s !! token) → token ≠ ""%string)
  ∧ (∀ token h, tasks s !! token = Some h →
       ∃ j, jobs s !! h = Some j ∧ job_token j = token).

(** Every scheduled task is the one the registry holds for its token. *)
Definition one_task_per_token (s : Server) : Prop :=
  ∀ h j, jobs s !! h = Some j → job_running j = true →
         tasks s !! job_token j = Some h.

(** A scheduled task of a subscribed token captured the stored interval. *)
Definition tasks_follow_store (s : Server) : Prop :=
  ∀ h j subscription,
    jobs s !! h = Some j → job_running j = true →
    subscriptions s !! job_token j = Some subscription →
    job_interval j = intervalMinutes subscription.

(** Every task runs on the cron expression of the interval it captured. *)
Definition expressions_match (s : Server) : Prop :=
  ∀ h j, jobs s !! h = Some j → job_expression j = cronExpression (job_interval j).

Definition consistent (s : Server) : Prop :=
  well_formed s ∧ one_task_per_token s ∧ tasks_follow_store s ∧ expressions_match s.

Section Cron.

(** The validation [cron.schedule] applies to an expression: it throws on an
    expression it rejects.  The library is not part of the repository. *)
Variable cron_validate : string → bool.

Definition scheduleNotification (token : string) (intervalMinutes : Z) (s : Server)
  : Server * Completion :=
  let cronExpression := cronExpression intervalMinutes in
  let s := match tasks s !! token with
           | Some existingJob => stop_job existingJob s
           | None => s
           end in
  if cron_validate cronExpression
  then
    let job := {| job_expression := cronExpression;
                  job_token := token;
                  job_interval := intervalMinutes;
                  job_running := true |} in
    ({| subscriptions := subscriptions s;
        tasks := <[token := length (jobs s)]> (tasks s);
        jobs := jobs s ++ [job] |}, Returned)
  else (s, Threw).

(** [POST /api/subscribe]; [now] is the reading of [Date.now()]. *)
Definition subscribe (b : Body) (now : Z) (s : Server) : Server * list Effect :=
  if negb (truthy_string (req_token b)) || negb (truthy_number (req_intervalMinutes b))
  then (s, [HttpResponse (failure 400 "Token and intervalMinutes are required")])
  else
    match req_token b, req_intervalMinutes b with
    | Some token, Some n =>
        let s := set_subscriptions
                   (<[token := {| intervalMinutes := parseInt n; lastSent := now |}]>
                      (subscriptions s)) s in
        match scheduleNotification token (parseInt n) s with
        | (s, Returned) => (s, [HttpResponse (ok "Subscribed successfully")])
        | (s, Threw) => (s, [HttpResponse (failure 500 "Failed to subscribe")])
        end
    | _, _ => (s, [HttpResponse (failure 400 "Token and intervalMinutes are required")])
    end.

(** What happens to the relay: a request arrives, a cron task fires (and its
    send settles before anything else runs), or a send issued earlier settles
    after other handlers have run. *)
Inductive Event :=
| Subscribe (b : Body) (now : Z)
| Unsubscribe (b : Body)
| Health (now : Z)
| CronFire (h : nat) (t_message : Z) (r : SendResult) (t_settle : Z)
| LateSettle (token : string) (r : SendResult) (now : Z).

Definition handle (e : Event) (s : Server) : Server * list Effect :=
  match e with
  | Subscribe b now => subscribe b now s
  | Unsubscribe b => unsubscribe b s
  | Health now => health now s
  | CronFire h t_message r t_settle => cron_fire h t_message r t_settle s
  | LateSettle token r now => (settle token r now s, [])
  end.

(** The states of the relay after any sequence of events. *)
Inductive reachable : Server → Prop :=
| reachable_init : reachable init
| reachable_handle e s : reachable s → reachable (fst (handle e s)).

(** The state after a sequence of events. *)
Fixpoint run (events : list Event) (s : Server) : Server :=
  match events with
  | [] => s
  | e :: rest => run rest (fst (handle e s))
  end.

End Cron.

End Relay.


(* ===================================================================== *)
(** ** The messaging worker, [firebase-messaging-sw.js] *)
(* ===================================================================== *)

Module MessagingWorker.

Local Open Scope Z_scope.

(** [payload.notification] of a background message. *)
Record PayloadNotification := {
  p_title : option string;
  p_body : option string;
  p_icon : option string
}.

(** A background message; [D] is the type of its [data]. *)
Record Payload (D : Type) := {
  notification : option PayloadNotification;
  data : option D
}.

Arguments notification {D} _.
Arguments data {D} _.

(** The title and the options handed to [showNotification]. *)
Record Shown (D : Type) := {
  s_title : string;
  s_body : string;
  s_icon : string;
  s_badge : string;
  s_tag : string;
  s_requireInteraction : bool;
  s_vibrate : list Z;
  s_data : option D
}.

Arguments s_title {D} _.
Arguments s_body {D} _.
Arguments s_icon {D} _.
Arguments s_badge {D} _.
Arguments s_tag {D} _.
Arguments s_requireInteraction {D} _.
Arguments s_vibrate {D} _.
Arguments s_data {D} _.

(** [payload.notification?.field || fallback]: the fallback replaces a
    missing field and an empty string. *)
Definition or_else (field : PayloadNotification → option string)
    (n : option PayloadNotification) (fallback : string) : string :=
  match n ≫= field with
  | Some v => if String.eqb v "" then fallback else v
  | None => fallback
  end.

(** The callback of [messaging.onBackgroundMessage]. *)
Definition onBackgroundMessage {D : Type} (payload : Payload D) : Shown D :=
  {| s_title := or_else p_title (notification payload) "Reminder Notification";
     s_body := or_else p_body (notification payload) "This is your scheduled reminder!";
     s_icon := or_else p_icon (notification payload) "/icon-192x192.jpg";
     s_badge := "/icon-192x192.jpg";
     s_tag := "reminder";
     s_requireInteraction := false;
     s_vibrate := [200; 100; 200];
     s_data := data payload |}.

End MessagingWorker.


(* ===================================================================== *)
(** ** The earlier worker: one timer per interval *)
(* ===================================================================== *)

(** The version of [sw.js] that runs [showNotification] from a
    [setInterval] of the whole interval.  It shows the same [reminder] and
    reads the same messages; it has no branch for [CHECK_SCHEDULE]. *)
Module EarlierWorker.

Local Open Scope Z_scope.

(** The module-level variables, with the live [setInterval] timers (each
    with its period in milliseconds) and the next timer handle. *)
Record Worker := {
  notificationInterval : option Z;
  notificationTimer : option positive;
  timers : gmap positive Z;
  next_timer : positive
}.

Definition init : Worker :=
  {| notificationInterval := None;
     notificationTimer := None;
     timers := ∅;
     next_timer := 1%positive |}.

Definition stopNotificationSchedule (w : Worker) : Worker :=
  let w1 := match notificationTimer w with
            | Some id =>
                {| notificationInterval := notificationInterval w;
                   notificationTimer := None;
                   timers := delete id (timers w);
                   next_timer := next_timer w |}
            | None => w
            end in
  {| notificationInterval := None;
     notificationTimer := notificationTimer w1;
     timers := timers w1;
     next_timer := next_timer w1 |}.

Definition startNotificationSchedule (intervalMinutes : Z) (w : Worker)
  : Worker * list ServiceWorker.Effect :=
  let w := stopNotificationSchedule w in
  let intervalMs := intervalMinutes * 60 * 1000 in
  let out := [ServiceWorker.showNotification] in
  ({| notificationInterval := Some intervalMinutes;
      notificationTimer := Some (next_timer w);
      timers := <[next_timer w := intervalMs]> (timers w);
      next_timer := Pos.succ (next_timer w) |}, out).

(** One wake-up of the timer [id]: a live timer runs [showNotification]. *)
Definition timer_fire (id : positive) (w : Worker) : list ServiceWorker.Effect :=
  match timers w !! id with
  | Some _ => [ServiceWorker.showNotification]
  | None => []
  end.

Definition on_message (m : ServiceWorker.Message) (w : Worker)
  : Worker * list ServiceWorker.Effect :=
  match m with
  | ServiceWorker.START_NOTIFICATIONS intervalMinutes =>
      startNotificationSchedule intervalMinutes w
  | ServiceWorker.STOP_NOTIFICATIONS => (stopNotificationSchedule w, [])
  | ServiceWorker.CHECK_SCHEDULE => (w, [])
  | ServiceWorker.OtherMessage => (w, [])
  end.

Inductive Event :=
| MessageEvent (m : ServiceWorker.Message)
| TimerEvent (id : positive).

Definition handle (e : Event) (w : Worker) : Worker * list ServiceWorker.Effect :=
  match e with
  | MessageEvent m => on_message m w
  | TimerEvent id => (w, timer_fire id w)
  end.

Fixpoint run (events : list Event) (w : Worker) : Worker * list ServiceWorker.Effect :=
  match events with
  | [] => (w, [])
  | e :: rest =>
      let r1 := handle e w in
      let r2 := run rest (fst r1) in
      (fst r2, snd r1 ++ snd r2)
  end.

Definition is_start (e : Event) : bool :=
  match e with
  | MessageEvent (ServiceWorker.START_NOTIFICATIONS _) => true
  | _ => false
  end.

Inductive reachable : Worker → Prop :=
| reachable_init : reachable init
| reachable_handle e w : reachable w → reachable (fst (handle e w)).

(** No timer and no interval, or one timer whose period is the interval. *)
Definition coherent (w : Worker) : Prop :=
  match notificationTimer w with
  | Some id =>
      ∃ i, notificationInterval w = Some i ∧ timers w = {[ id := i * 60 * 1000 ]}
  | None => notificationInterval w = None ∧ timers w = ∅
  end.

End EarlierWorker.


(* ===================================================================== *)
(** ** The page's side of the relay, [lib/firebase.ts] and the home page *)
(* ===================================================================== *)

Module Page.

(** What [getMessaging(app)] does, and how [await getToken(...)] settles. *)
Inductive GetMessaging := MessagingReady | MessagingThrows.

Inductive GetToken :=
| TokenResolved (token : string)
| TokenRejected.

(** [getMessagingInstance]: whether it returns a messaging instance;
    [hasWindow] is [typeof window !== "undefined"]. *)
Definition getMessagingInstance (hasWindow : bool) (m : GetMessaging) : bool :=
  if negb hasWindow
  then false
  else match m with
       | MessagingReady => true
       | MessagingThrows => false
       end.

(** [getFCMToken]; [None] is [null]. *)
Definition getFCMToken (hasWindow : bool) (m : GetMessaging) (t : GetToken)
  : option string :=
  if negb hasWindow
  then None
  else if negb (getMessagingInstance hasWindow m)
       then None
       else match t with
            | TokenResolved token =>
                if negb (String.eqb token "") then Some token else None
            | TokenRejected => None
            end.

(** The body [subscribeToBackend] posts,
    [JSON.stringify({token: fcmToken, intervalMinutes})], as the relay's
    [express.json()] reads it when the request reaches it. *)
Definition subscribe_body (fcmToken : string) (intervalMinutes : Z) : Relay.Body :=
  {| Relay.req_token := Some fcmToken;
     Relay.req_intervalMinutes := Some intervalMinutes |}.

End Page.


(* ===================================================================== *)
(** ** Properties of the worker's schedule *)
(* ===================================================================== *)

Module ServiceWorkerFacts.

Import ServiceWorker.

Local Open Scope Z_scope.

Lemma truthy_Some (n : Z) : truthy (Some n) = true ↔ n ≠ 0.
Proof.
  unfold truthy. rewrite negb_true_iff, Z.eqb_neq. reflexivity.
Qed.

Lemma stop_fields (w : Worker) :
  notificationInterval (stopNotificationSchedule w) = None
  ∧ nextNotificationTime (stopNotificationSchedule w) = None
  ∧ checkInterval (stopNotificationSchedule w) = None
  ∧ next_timer (stopNotificationSchedule w) = next_timer w.
Proof.
  unfold stopNotificationSchedule. destruct (checkInterval w) eqn:E; cbn; auto.
Qed.

Lemma stop_timers (w : Worker) :
  timers (stopNotificationSchedule w)
  = match checkInterval w with
    | Some id => delete id (timers w)
    | None => timers w
    end.
Proof.
  unfold stopNotificationSchedule. destruct (checkInterval w); reflexivity.
Qed.

Lemma coherent_init : coherent init.
Proof. repeat split. Qed.

Lemma coherent_stop (w : Worker) :
  coherent w → timers (stopNotificationSchedule w) = ∅.
Proof.
  unfold coherent. rewrite stop_timers.
  destruct (checkInterval w) as [id|].
  - intros (i & c & _ & _ & ->). apply delete_singleton_eq.
  - intros (_ & _ & ->). reflexivity.
Qed.

Lemma stop_coherent (w : Worker) :
  coherent w → coherent (stopNotificationSchedule w).
Proof.
  intros H. pose proof (coherent_stop w H) as Ht.
  destruct (stop_fields w) as (Hi & Hn & Hc & _).
  unfold coherent. rewrite Hc. auto.
Qed.

Lemma start_fields (i : Z) (t1 t2 : Time) (w : Worker) :
  let w' := fst (startNotificationSchedule i t1 t2 w) in
  notificationInterval w' = Some i
  ∧ nextNotificationTime w' = Some (Z.pos t2 + i * 60 * 1000)
  ∧ checkInterval w' = Some (next_timer w)
  ∧ timers w'
    = <[next_timer w := i * 60 * 1000]> (timers (stopNotificationSchedule w)).
Proof.
  unfold startNotificationSchedule, stopNotificationSchedule.
  destruct (checkInterval w); cbn; auto.
Qed.

Lemma start_coherent (i : Z) (t1 t2 : Time) (w : Worker) :
  coherent w → coherent (fst (startNotificationSchedule i t1 t2 w)).
Proof.
  intros H. destruct (start_fields i t1 t2 w) as (Hi & Hn & Hc & Ht).
  unfold coherent. rewrite Hc. exists i, t2.
  rewrite Hi, Hn, Ht, (coherent_stop w H). auto.
Qed.

Lemma check_coherent (id : positive) (now : Time) (w : Worker) :
  coherent w → coherent (fst (poll_tick id now w)).
Proof.
  intros H. unfold poll_tick.
  destruct (timers w !! id) as [ms|] eqn:Hid; [|exact H].
  unfold checkAndSendNotification.
  destruct (negb _ || negb _); [exact H|].
  destruct (_ <=? _); [|exact H].
  revert H Hid. unfold coherent. cbn.
  destruct (checkInterval w) as [id'|].
  - intros (i & c & Hi & Hn & Ht) Hid. exists i, now.
    rewrite Ht in Hid. apply lookup_singleton_Some in Hid as [_ <-]. auto.
  - intros (_ & _ & Ht). rewrite Ht, lookup_empty. discriminate.
Qed.

Lemma handle_coherent (e : Event) (w : Worker) :
  coherent w → coherent (fst (handle e w)).
Proof.
  intros H. destruct e as [m ports t1 t2|id now].
  - destruct m as [i| | |].
    + exact (start_coherent i t1 t2 w H).
    + exact (stop_coherent w H).
    + destruct ports; exact H.
    + exact H.
  - exact (check_coherent id now w H).
Qed.

Lemma reachable_coherent (w : Worker) : reachable w → coherent w.
Proof.
  induction 1 as [|e w _ IH].
  - apply coherent_init.
  - apply handle_coherent, IH.
Qed.

(** A cleared timer never runs its callback again. *)
Lemma poll_tick_cleared (id : positive) (now : Time) (w : Worker) :
  timers w !! id = None → poll_tick id now w = (w, []).
Proof. intros H. unfold poll_tick. rewrite H. reflexivity. Qed.

(** [start(5)] at 1000 ms, [stop()] two minutes later: the wake-up of the old
    timer at five minutes shows nothing. *)
Example start_stop_then_silence :
  let w1 := fst (startNotificationSchedule 5 1000%positive 1000%positive init) in
  let w2 := stopNotificationSchedule w1 in
  checkInterval w1 = Some 1%positive
  ∧ poll_tick 1%positive 301000%positive w2 = (w2, []).
Proof. split; reflexivity. Qed.

(** [start(1)] at 1000 ms: the wake-ups before one minute has passed show
    nothing, the first one after it shows the second notification. *)
Example start_one_minute :
  let w := fst (startNotificationSchedule 1 1000%positive 1000%positive init) in
  snd (poll_tick 1%positive 11000%positive w) = []
  ∧ snd (poll_tick 1%positive 51000%positive w) = []
  ∧ snd (poll_tick 1%positive 61000%positive w) = [showNotification].
Proof. split_and!; reflexivity. Qed.

(** An active schedule of a reachable worker: its poll timer is live and
    captured the schedule's interval, and its deadline is positive. *)
Lemma reachable_active (w : Worker) (i : Z) :
  reachable w → notificationInterval w = Some i →
  ∃ id (c : Time),
    checkInterval w = Some id
    ∧ timers w = {[ id := i * 60 * 1000 ]}
    ∧ nextNotificationTime w = Some (Z.pos c + i * 60 * 1000).
Proof.
  intros Hr Hi. apply reachable_coherent in Hr. unfold coherent in Hr.
  destruct (checkInterval w) as [id|].
  - destruct Hr as (i' & c & Hi' & Hn & Ht).
    assert (i' = i) as -> by congruence. eauto.
  - destruct Hr as (Hi' & _). congruence.
Qed.

(** An inactive schedule of a reachable worker has no poll timer. *)
Lemma reachable_inactive (w : Worker) :
  reachable w → notificationInterval w = None →
  nextNotificationTime w = None ∧ checkInterval w = None ∧ timers w = ∅.
Proof.
  intros Hr Hi. apply reachable_coherent in Hr. unfold coherent in Hr.
  destruct (checkInterval w) as [id|].
  - destruct Hr as (i & c & Hi' & _). congruence.
  - tauto.
Qed.

(** C1. For every [intervalMinutes > 0] whose deadline stays a safe integer,
    from any state the worker can be in,
    [startNotificationSchedule intervalMinutes] leaves exactly one poll timer
    (whatever schedule existed is cleared), sets the schedule's interval,
    shows exactly one notification at once, the reminder with its fixed
    title, body, icons, tag and vibration, and sets the deadline to the clock
    reading [now] plus [intervalMinutes * 60000]; the schedule is active
    (both fields truthy); a [CHECK_SCHEDULE] handled right after replies with
    that interval and deadline, and the deadline it reports lies within 10
    seconds of [asked + intervalMinutes * 60000] for every instant [asked]
    within 10 seconds of [now]. *)
Theorem start_then_query (w : Worker) (intervalMinutes : Z) (t1 now : Time)
    (p : Port) (ports : list Port) (q1 q2 : Time) :
  reachable w →
  0 < intervalMinutes →
  Z.pos now + intervalMinutes * 60000 ≤ MAX_SAFE_INTEGER →
  let started := startNotificationSchedule intervalMinutes t1 now w in
  let w' := fst started in
  snd started
  = [ShowNotification {| title := "Reminder Notification";
                         body := "This is your scheduled reminder!";
                         icon := "/icon-192x192.jpg";
                         badge := "/icon-192x192.jpg";
                         tag := "reminder";
                         requireInteraction := false;
                         vibrate := [200; 100; 200] |}]
  ∧ notificationInterval w' = Some intervalMinutes
  ∧ nextNotificationTime w' = Some (Z.pos now + intervalMinutes * 60000)
  ∧ (∃ id, checkInterval w' = Some id
           ∧ timers w' = {[ id := intervalMinutes * 60000 ]})
  ∧ truthy (notificationInterval w') && truthy (nextNotificationTime w') = true
  ∧ on_message CHECK_SCHEDULE (p :: ports) q1 q2 w'
    = (w', [PostMessage p {| interval := Some intervalMinutes;
                             nextTime := Some (Z.pos now + intervalMinutes * 60000) |}],
       Completed)
  ∧ (∀ asked : Time,
       Z.abs (Z.pos asked - Z.pos now) ≤ 10000 →
       ∃ reported,
         snd (fst (on_message CHECK_SCHEDULE (p :: ports) q1 q2 w'))
         = [PostMessage p {| interval := Some intervalMinutes;
                             nextTime := Some reported |}]
         ∧ Z.abs (reported - (Z.pos asked + intervalMinutes * 60000)) ≤ 10000).
Proof.
  intros Hr Hpos Hsafe started w'.
  destruct (start_fields intervalMinutes t1 now w) as (Hi & Hn & Hc & Ht).
  fold started in Hi, Hn, Hc, Ht. fold w' in Hi, Hn, Hc, Ht.
  replace (intervalMinutes * 60 * 1000) with (intervalMinutes * 60000) in * by lia.
  rewrite (coherent_stop w (reachable_coherent w Hr)) in Ht.
  split_and!.
  - reflexivity.
  - exact Hi.
  - exact Hn.
  - exists (next_timer w). split; [exact Hc | exact Ht].
  - rewrite Hi, Hn. apply andb_true_iff. split; apply truthy_Some; lia.
  - cbn [on_message]. rewrite Hi, Hn. reflexivity.
  - intros asked Ha. exists (Z.pos now + intervalMinutes * 60000). split.
    + cbn [on_message fst snd]. rewrite Hi, Hn. reflexivity.
    + lia.
Qed.

Lemma start_then_query_witness :
  reachable init ∧ 0 < 5
  ∧ 1001 + 5 * 60000 ≤ MAX_SAFE_INTEGER
  ∧ snd (startNotificationSchedule 5 1000%positive 1001%positive init)
    = [ShowNotification {| title := "Reminder Notification";
                           body := "This is your scheduled reminder!";
                           icon := "/icon-192x192.jpg";
                           badge := "/icon-192x192.jpg";
                           tag := "reminder";
                           requireInteraction := false;
                           vibrate := [200; 100; 200] |}]
  ∧ nextNotificationTime
      (fst (startNotificationSchedule 5 1000%positive 1001%positive init))
    = Some 301001.
Proof.
  assert (1001 + 5 * 60000 ≤ MAX_SAFE_INTEGER) as Hsafe by (unfold MAX_SAFE_INTEGER; lia).
  pose proof (start_then_query init 5 1000%positive 1001%positive 0%nat []
                1002%positive 1003%positive reachable_init eq_refl Hsafe) as H.
  split_and!.
  - exact reachable_init.
  - lia.
  - exact Hsafe.
  - exact (proj1 H).
  - exact (proj1 (proj2 (proj2 H))).
Defined.

(** C2. In an active schedule (interval [i > 0], deadline [t]) of a reachable
    worker, with the deadlines within the safe integers, a wake-up of the
    poll timer at clock reading [now >= t] shows exactly one notification,
    the reminder with its fixed title, body, icons, tag and vibration, and
    moves the deadline to [now + i * 60000], leaving everything else as it
    was; when the wake-up is late the new deadline is not [t + i * 60000]; a
    wake-up at [now < t] shows nothing and changes nothing. *)
Theorem poll_tick_catch_up (w : Worker) (id : positive) (i t : Z) (now : Time) :
  reachable w →
  checkInterval w = Some id →
  notificationInterval w = Some i →
  0 < i →
  nextNotificationTime w = Some t →
  t ≤ MAX_SAFE_INTEGER →
  Z.pos now + i * 60000 ≤ MAX_SAFE_INTEGER →
  (t ≤ Z.pos now →
     poll_tick id now w
     = (set_schedule (Some i) (Some (Z.pos now + i * 60000)) w,
        [ShowNotification {| title := "Reminder Notification";
                             body := "This is your scheduled reminder!";
                             icon := "/icon-192x192.jpg";
                             badge := "/icon-192x192.jpg";
                             tag := "reminder";
                             requireInteraction := false;
                             vibrate := [200; 100; 200] |}]))
  ∧ (t < Z.pos now →
     nextNotificationTime (fst (poll_tick id now w)) = Some (Z.pos now + i * 60000)
     ∧ nextNotificationTime (fst (poll_tick id now w)) ≠ Some (t + i * 60000))
  ∧ (Z.pos now < t → poll_tick id now w = (w, [])).
Proof.
  intros Hr Hc Hi Hpos Hn Hsafe_t Hsafe.
  destruct (reachable_active w i Hr Hi) as (id' & c & Hc' & Ht & Hn').
  assert (id' = id) as -> by congruence.
  assert (t = Z.pos c + i * 60 * 1000) as Et by congruence.
  assert (truthy (nextNotificationTime w) = true) as Tn
    by (rewrite Hn; apply truthy_Some; lia).
  assert (truthy (notificationInterval w) = true) as Ti
    by (rewrite Hi; apply truthy_Some; lia).
  unfold poll_tick, checkAndSendNotification.
  rewrite Ht, lookup_singleton_eq, Tn, Ti, Hn, Hi.
  change (to_number (Some t)) with t. cbn [negb orb].
  split_and!.
  - intros Hle. apply Z.leb_le in Hle. rewrite Hle.
    replace (i * 60 * 1000) with (i * 60000) by lia. reflexivity.
  - intros Hlt. assert ((t <=? Z.pos now) = true) as -> by (apply Z.leb_le; lia).
    cbn [fst set_schedule nextNotificationTime].
    replace (i * 60 * 1000) with (i * 60000) by lia.
    split; [reflexivity|]. intros [= Heq]. lia.
  - intros Hlt. apply Z.leb_gt in Hlt. rewrite Hlt. reflexivity.
Qed.

Lemma poll_tick_catch_up_witness :
  let w := fst (startNotificationSchedule 1 1000%positive 1001%positive init) in
  reachable w
  ∧ checkInterval w = Some 1%positive
  ∧ notificationInterval w = Some 1
  ∧ 0 < 1
  ∧ nextNotificationTime w = Some 61001
  ∧ 61001 ≤ MAX_SAFE_INTEGER
  ∧ 75000 + 1 * 60000 ≤ MAX_SAFE_INTEGER
  ∧ 61001 ≤ 75000
  ∧ snd (poll_tick 1%positive 75000%positive w)
    = [ShowNotification {| title := "Reminder Notification";
                           body := "This is your scheduled reminder!";
                           icon := "/icon-192x192.jpg";
                           badge := "/icon-192x192.jpg";
                           tag := "reminder";
                           requireInteraction := false;
                           vibrate := [200; 100; 200] |}]
  ∧ nextNotificationTime (fst (poll_tick 1%positive 75000%positive w)) = Some 135000.
Proof.
  intros w.
  assert (reachable w) as Hr
    by exact (reachable_handle
                (MessageEvent (START_NOTIFICATIONS 1) [] 1000%positive 1001%positive)
                init reachable_init).
  assert (61001 ≤ 75000) as Hle by lia.
  assert (61001 ≤ MAX_SAFE_INTEGER) as Hs1 by (unfold MAX_SAFE_INTEGER; lia).
  assert (75000 + 1 * 60000 ≤ MAX_SAFE_INTEGER) as Hs2 by (unfold MAX_SAFE_INTEGER; lia).
  pose proof (proj1 (poll_tick_catch_up w 1%positive 1 61001 75000%positive
                       Hr eq_refl eq_refl eq_refl eq_refl Hs1 Hs2) Hle) as Hfire.
  split_and!.
  - exact Hr.
  - reflexivity.
  - reflexivity.
  - reflexivity.
  - reflexivity.
  - exact Hs1.
  - exact Hs2.
  - exact Hle.
  - rewrite Hfire. reflexivity.
  - rewrite Hfire. reflexivity.
Defined.

(** C3. In every state the worker reaches, and so after every message it
    handles ([START_NOTIFICATIONS], [STOP_NOTIFICATIONS], [CHECK_SCHEDULE] or
    any other) and after every wake-up of a poll timer, the deadline is [null]
    exactly when the interval is [null]. *)
Theorem schedule_all_or_nothing (w : Worker) :
  reachable w →
  (nextNotificationTime w = None ↔ notificationInterval w = None)
  ∧ ∀ e : Event,
      nextNotificationTime (fst (handle e w)) = None
      ↔ notificationInterval (fst (handle e w)) = None.
Proof.
  assert (∀ v, reachable v →
               nextNotificationTime v = None ↔ notificationInterval v = None) as Inv.
  { intros v Hv. apply reachable_coherent in Hv. unfold coherent in Hv.
    destruct (checkInterval v).
    - destruct Hv as (i & c & -> & -> & _). split; discriminate.
    - destruct Hv as (-> & -> & _). tauto. }
  intros Hr. split.
  - apply Inv, Hr.
  - intros e. apply Inv, reachable_handle, Hr.
Qed.

Lemma schedule_all_or_nothing_witness :
  let w := fst (startNotificationSchedule 1 1000%positive 1001%positive init) in
  reachable w
  ∧ (nextNotificationTime (fst (handle (TimerEvent 1%positive 75000%positive) w)) = None
     ↔ notificationInterval (fst (handle (TimerEvent 1%positive 75000%positive) w)) = None).
Proof.
  intros w.
  assert (reachable w) as Hr
    by exact (reachable_handle
                (MessageEvent (START_NOTIFICATIONS 1) [] 1000%positive 1001%positive)
                init reachable_init).
  split; [exact Hr|].
  exact (proj2 (schedule_all_or_nothing w Hr) (TimerEvent 1%positive 75000%positive)).
Defined.

(** C4. From any state, [stopNotificationSchedule] run twice yields exactly
    the state it yields when run once: interval, deadline and timer handle
    are [null] and the poll timer the worker held is no longer live.  On a
    reachable worker whose schedule is inactive it changes nothing. *)
Theorem stop_idempotent (w : Worker) :
  stopNotificationSchedule (stopNotificationSchedule w) = stopNotificationSchedule w
  ∧ notificationInterval (stopNotificationSchedule w) = None
  ∧ nextNotificationTime (stopNotificationSchedule w) = None
  ∧ checkInterval (stopNotificationSchedule w) = None
  ∧ (∀ id, checkInterval w = Some id → timers (stopNotificationSchedule w) !! id = None)
  ∧ (reachable w → timers (stopNotificationSchedule w) = ∅)
  ∧ (reachable w → notificationInterval w = None → stopNotificationSchedule w = w).
Proof.
  destruct (stop_fields w) as (Hi & Hn & Hc & _).
  split_and!; try assumption.
  - unfold stopNotificationSchedule at 1. rewrite Hc.
    unfold stopNotificationSchedule. destruct (checkInterval w); reflexivity.
  - intros id Hid. rewrite stop_timers, Hid. apply lookup_delete_eq.
  - intros Hr. apply coherent_stop, reachable_coherent, Hr.
  - intros Hr Hnone.
    destruct (reachable_inactive w Hr Hnone) as (Hn' & Hc' & _).
    clear Hi Hn Hc. unfold stopNotificationSchedule, set_schedule. rewrite Hc'.
    destruct w as [i n c t k]. cbn in Hnone, Hn', Hc'. subst. reflexivity.
Qed.

Lemma stop_idempotent_witness :
  let w := fst (startNotificationSchedule 1 1000%positive 1001%positive init) in
  stopNotificationSchedule (stopNotificationSchedule w) = stopNotificationSchedule w
  ∧ reachable init
  ∧ notificationInterval init = None
  ∧ stopNotificationSchedule init = init.
Proof.
  intros w. split_and!.
  - exact (proj1 (stop_idempotent w)).
  - exact reachable_init.
  - reflexivity.
  - exact (proj2 (proj2 (proj2 (proj2 (proj2 (proj2 (stop_idempotent init))))))
             reachable_init eq_refl).
Defined.

(** C5. In every state, a [CHECK_SCHEDULE] message that carries a reply port
    posts on that port exactly [{interval: notificationInterval, nextTime:
    nextNotificationTime}] and leaves the worker as it was; on a reachable
    worker whose schedule is inactive the reply is [{null, null}]. *)
Theorem check_schedule_reply (w : Worker) (p : Port) (ports : list Port) (t1 t2 : Time) :
  on_message CHECK_SCHEDULE (p :: ports) t1 t2 w
  = (w, [PostMessage p {| interval := notificationInterval w;
                          nextTime := nextNotificationTime w |}], Completed)
  ∧ (reachable w → notificationInterval w = None →
     on_message CHECK_SCHEDULE (p :: ports) t1 t2 w
     = (w, [PostMessage p {| interval := None; nextTime := None |}], Completed)).
Proof.
  split; [reflexivity|].
  intros Hr Hi. destruct (reachable_inactive w Hr Hi) as (Hn & _).
  cbn [on_message]. rewrite Hi, Hn. reflexivity.
Qed.

Lemma check_schedule_reply_witness :
  reachable init
  ∧ notificationInterval init = None
  ∧ on_message CHECK_SCHEDULE [7%nat] 1%positive 1%positive init
    = (init, [PostMessage 7%nat {| interval := None; nextTime := None |}], Completed).
Proof.
  split_and!.
  - exact reachable_init.
  - reflexivity.
  - exact (proj2 (check_schedule_reply init 7%nat [] 1%positive 1%positive)
             reachable_init eq_refl).
Defined.

(** What the loop of the click handler finds: the first client whose [url]
    is exactly ["/"] and that can be focused. *)
Lemma first_focusable_Some (clientList : list Client) (c : Client) :
  first_focusable clientList = Some c →
  c ∈ clientList ∧ url c = "/"%string ∧ has_focus c = true.
Proof.
  induction clientList as [|d rest IH]; cbn; [discriminate|].
  destruct (String.eqb (url d) "/" && has_focus d) eqn:E.
  - intros [= <-]. apply andb_true_iff in E as [Eu Ef].
    apply String.eqb_eq in Eu. split_and!; [left | exact Eu | exact Ef].
  - intros H. destruct (IH H) as (Hin & Hu & Hf). split_and!; [right|..]; assumption.
Qed.

Lemma first_focusable_None (clientList : list Client) :
  first_focusable clientList = None ↔
  ∀ c, c ∈ clientList → url c ≠ "/"%string ∨ has_focus c = false.
Proof.
  induction clientList as [|d rest IH]; cbn.
  - split; [|reflexivity]. intros _ c Hc. inversion Hc.
  - destruct (String.eqb (url d) "/" && has_focus d) eqn:E.
    + split; [discriminate|]. intros H.
      apply andb_true_iff in E as [Eu Ef]. apply String.eqb_eq in Eu.
      destruct (H d) as [Hu|Hf]; [left | contradiction | congruence].
    + rewrite IH. apply andb_false_iff in E.
      split.
      * intros H c Hc. apply elem_of_cons in Hc as [->|Hc]; [|apply H, Hc].
        destruct E as [Eu|Ef]; [left | right; exact Ef].
        apply String.eqb_neq, Eu.
      * intros H c Hc. apply H. right. exact Hc.
Qed.

(** What the click handler does, for every list of clients: it closes the
    notification, then focuses the first client whose [url] is ["/"] and that
    can be focused, or else opens ["/"] when [clients.openWindow] exists. *)
Lemma on_notificationclick_cases (clientList : list Client) (openWindow : bool) :
  (∃ c, c ∈ clientList ∧ url c = "/"%string ∧ has_focus c = true
        ∧ on_notificationclick clientList openWindow = [CloseNotification; Focus c])
  ∨ ((∀ c, c ∈ clientList → url c ≠ "/"%string ∨ has_focus c = false)
     ∧ on_notificationclick clientList openWindow
       = CloseNotification :: (if openWindow then [OpenWindow "/"] else [])).
Proof.
  unfold on_notificationclick.
  destruct (first_focusable clientList) as [c|] eqn:E.
  - left. exists c. destruct (first_focusable_Some clientList c E) as (Hin & Hu & Hf).
    auto.
  - right. split; [apply first_focusable_None, E | reflexivity].
Qed.

(** C8, on the code.  With one app window open, at the address a browser
    reports for it, a click closes the notification and opens a second window
    at ["/"]: the open window is not focused, because the handler focuses a
    client only when its [url] is the string ["/"]. *)
Theorem notificationclick_open_window_not_focused :
  on_notificationclick
    [ {| url := "https://nextpwa.example/"; has_focus := true |} ] true
  = [CloseNotification; OpenWindow "/"].
Proof. reflexivity. Qed.

End ServiceWorkerFacts.


(* ===================================================================== *)
(** ** Properties of the relay's subscription store *)
(* ===================================================================== *)

Module RelayFacts.

Import Relay.

Local Open Scope Z_scope.

Lemma truthy_string_Some (token : string) :
  truthy_string (Some token) = true ↔ token ≠ ""%string.
Proof.
  unfold truthy_string. rewrite negb_true_iff. apply String.eqb_neq.
Qed.

Lemma truthy_number_Some (n : Z) : truthy_number (Some n) = true ↔ n ≠ 0.
Proof.
  unfold truthy_number. rewrite negb_true_iff. apply Z.eqb_neq.
Qed.

(** The two error codes for which the relay drops a subscription. *)
Lemma invalid_token_iff (code : option string) :
  invalid_token code = true ↔
  code = Some "messaging/invalid-registration-token"%string
  ∨ code = Some "messaging/registration-token-not-registered"%string.
Proof.
  destruct code as [c|]; cbn.
  - rewrite orb_true_iff, !String.eqb_eq. split.
    + intros [->| ->]; auto.
    + intros [[= ->]|[= ->]]; auto.
  - split; [discriminate|]. intros [|]; discriminate.
Qed.

(** [GET /health] reports the size of the subscription store and changes
    nothing. *)
Lemma health_reports (now : Z) (s : Server) :
  health now s
  = (s, [HttpResponse {| status := 200; json := JHealth "ok" (health_count s) now |}]).
Proof. reflexivity. Qed.

Example cronExpression_every_minute : cronExpression 1 = "* * * * *"%string.
Proof. reflexivity. Qed.

Example cronExpression_every_15 : cronExpression 15 = "*/15 * * * *"%string.
Proof. reflexivity. Qed.

Example message_body_plural :
  msg_body (message_of "abc" 1 0)
  = "This is your scheduled reminder! (Every 1 minute)"%string
  ∧ msg_body (message_of "abc" 15 0)
    = "This is your scheduled reminder! (Every 15 minutes)"%string.
Proof. split; reflexivity. Qed.

(** Stopping a task keeps every handle and every captured token. *)
Lemma stop_job_lookup (h k : nat) (s : Server) (j : Job) :
  jobs s !! k = Some j →
  ∃ j', jobs (stop_job h s) !! k = Some j' ∧ job_token j' = job_token j.
Proof.
  intros Hk. cbn. destruct (decide (h = k)) as [->|Hne].
  - rewrite list_lookup_alter_eq, Hk. cbn. eauto.
  - rewrite list_lookup_alter_ne by exact Hne. eauto.
Qed.

Section Cron.

Variable cron_validate : string → bool.

(** The job list a [scheduleNotification] for [token] starts from: the task
    stored for the token, when there is one, has been stopped. *)
Lemma scheduleNotification_accepted (token : string) (n : Z) (s : Server) :
  cron_validate (cronExpression n) = true →
  scheduleNotification cron_validate token n s
  = ({| subscriptions := subscriptions s;
        tasks := <[token := length (jobs s)]> (tasks s);
        jobs := match tasks s !! token with
                | Some h => alter stopped h (jobs s)
                | None => jobs s
                end
                ++ [ {| job_expression := cronExpression n;
                        job_token := token;
                        job_interval := n;
                        job_running := true |} ] |}, Returned).
Proof.
  intros Hv. unfold scheduleNotification. rewrite Hv.
  destruct (tasks s !! token) as [h|]; cbn; rewrite ?length_alter; reflexivity.
Qed.

Lemma scheduleNotification_subscriptions (token : string) (n : Z) (s : Server) :
  subscriptions (fst (scheduleNotification cron_validate token n s)) = subscriptions s.
Proof.
  unfold scheduleNotification.
  destruct (cron_validate _), (tasks s !! token); reflexivity.
Qed.

(** A request with a non-empty token and a non-zero interval whose cron
    expression is accepted: the subscription is stored, the task replaced. *)
Lemma subscribe_accepted (token : string) (n now : Z) (s : Server) :
  token ≠ ""%string → n ≠ 0 → cron_validate (cronExpression n) = true →
  subscribe cron_validate {| req_token := Some token; req_intervalMinutes := Some n |} now s
  = ({| subscriptions := <[token := {| intervalMinutes := n; lastSent := now |}]>
                           (subscriptions s);
        tasks := <[token := length (jobs s)]> (tasks s);
        jobs := match tasks s !! token with
                | Some h => alter stopped h (jobs s)
                | None => jobs s
                end
                ++ [ {| job_expression := cronExpression n;
                        job_token := token;
                        job_interval := n;
                        job_running := true |} ] |},
     [HttpResponse (ok "Subscribed successfully")]).
Proof.
  intros Ht Hn Hv. unfold subscribe. cbn [req_token req_intervalMinutes].
  apply truthy_string_Some in Ht. apply truthy_number_Some in Hn.
  rewrite Ht, Hn. cbn [negb orb]. unfold parseInt.
  rewrite scheduleNotification_accepted by exact Hv. reflexivity.
Qed.

(** A request without a usable token is refused and changes nothing. *)
Lemma subscribe_refused (b : Body) (now : Z) (s : Server) :
  truthy_string (req_token b) = false →
  subscribe cron_validate b now s
  = (s, [HttpResponse (failure 400 "Token and intervalMinutes are required")]).
Proof.
  intros Ht. unfold subscribe. rewrite Ht. reflexivity.
Qed.

Lemma well_formed_init : well_formed init.
Proof.
  split.
  - intros token [x Hx]. cbn in Hx. rewrite lookup_empty in Hx. discriminate.
  - intros token h Hh. cbn in Hh. rewrite lookup_empty in Hh. discriminate.
Qed.

(** Replacing the store by one with no new key keeps the state well formed. *)
Lemma well_formed_set_subscriptions (m : gmap string Subscription) (s : Server) :
  well_formed s →
  (∀ token, is_Some (m !! token) → is_Some (subscriptions s !! token)) →
  well_formed (set_subscriptions m s).
Proof.
  intros [Hk Hr] Hsub. split; [|exact Hr].
  intros token Hm. apply Hk, Hsub, Hm.
Qed.

Lemma well_formed_settle (token : string) (r : SendResult) (now : Z) (s : Server) :
  well_formed s → well_formed (settle token r now s).
Proof.
  intros Hs. unfold settle. destruct r as [response|code].
  - destruct (subscriptions s !! token) as [sub|] eqn:E; [|exact Hs].
    apply well_formed_set_subscriptions; [exact Hs|].
    intros k Hk. apply lookup_insert_is_Some in Hk as [<-|[_ Hk]]; [|exact Hk].
    rewrite E. eauto.
  - destruct (invalid_token code); [|exact Hs].
    apply well_formed_set_subscriptions; [exact Hs|].
    intros k Hk. apply lookup_delete_is_Some in Hk as [_ Hk]. exact Hk.
Qed.

Lemma well_formed_stop_job (h : nat) (s : Server) :
  well_formed s → well_formed (stop_job h s).
Proof.
  intros [Hk Hr]. split; [exact Hk|].
  intros token k Hh. destruct (Hr token k Hh) as (j & Hj & Ht).
  destruct (stop_job_lookup h k s j Hj) as (j' & Hj' & Ht'). exists j'.
  split; [exact Hj' | congruence].
Qed.

Lemma well_formed_scheduleNotification (token : string) (n : Z) (s : Server) :
  well_formed s → well_formed (fst (scheduleNotification cron_validate token n s)).
Proof.
  intros Hs. unfold scheduleNotification.
  set (s1 := match tasks s !! token with
             | Some existingJob => stop_job existingJob s
             | None => s
             end).
  assert (well_formed s1) as [Hk Hr].
  { subst s1. destruct (tasks s !! token); [apply well_formed_stop_job|]; exact Hs. }
  destruct (cron_validate (cronExpression n)); cbn [fst]; [|split; assumption].
  split; [exact Hk|]. cbn [tasks jobs].
  intros k h Hh. apply lookup_insert_Some in Hh as [[<- <-]|[Hne Hh]].
  - eexists. split; [apply list_lookup_middle; reflexivity | reflexivity].
  - destruct (Hr k h Hh) as (j & Hj & Ht). exists j. split; [|exact Ht].
    rewrite lookup_app_l by (eapply lookup_lt_Some, Hj). exact Hj.
Qed.

Lemma well_formed_subscribe (b : Body) (now : Z) (s : Server) :
  well_formed s → well_formed (fst (subscribe cron_validate b now s)).
Proof.
  intros Hs. unfold subscribe.
  destruct (truthy_string (req_token b)) eqn:Et; [|exact Hs].
  destruct (truthy_number (req_intervalMinutes b)) eqn:En; [|exact Hs].
  cbn [negb orb].
  destruct (req_token b) as [token|]; [|exact Hs].
  destruct (req_intervalMinutes b) as [n|]; [|exact Hs].
  set (s1 := set_subscriptions _ s).
  assert (well_formed s1) as Hs1.
  { destruct Hs as [Hk Hr]. split; [|exact Hr].
    intros k Hin. cbn in Hin.
    apply lookup_insert_is_Some in Hin as [<-|[_ Hin]]; [|apply Hk, Hin].
    apply truthy_string_Some, Et. }
  pose proof (well_formed_scheduleNotification token (parseInt n) s1 Hs1) as H.
  destruct (scheduleNotification cron_validate token (parseInt n) s1) as [s2 []];
    exact H.
Qed.

Lemma well_formed_unsubscribe (b : Body) (s : Server) :
  well_formed s → well_formed (fst (unsubscribe b s)).
Proof.
  intros Hs. unfold unsubscribe.
  destruct (truthy_string (req_token b)); [|exact Hs]. cbn [negb].
  destruct (req_token b) as [token|]; [|exact Hs].
  apply well_formed_set_subscriptions; [exact Hs|].
  intros k Hk. apply lookup_delete_is_Some in Hk as [_ Hk]. exact Hk.
Qed.

Lemma well_formed_handle (e : Event) (s : Server) :
  well_formed s → well_formed (fst (handle cron_validate e s)).
Proof.
  intros Hs. destruct e as [b now|b|now|h tm r ts|token r now]; cbn [handle].
  - apply well_formed_subscribe, Hs.
  - apply well_formed_unsubscribe, Hs.
  - exact Hs.
  - unfold cron_fire. destruct (jobs s !! h) as [j|]; [|exact Hs].
    destruct (job_running j); [|exact Hs]. apply well_formed_settle, Hs.
  - apply well_formed_settle, Hs.
Qed.

Lemma reachable_well_formed (s : Server) :
  reachable cron_validate s → well_formed s.
Proof.
  induction 1 as [|e s _ IH].
  - apply well_formed_init.
  - apply well_formed_handle, IH.
Qed.

(** C6. In every state of the relay in which the token ["abc"] has no stored
    subscription, and with a cron library that accepts the expression for 15
    minutes, [POST /api/subscribe] with [{token: "abc", intervalMinutes: 15}]
    answers with status 200, and a [GET /health] after it reports one
    subscription more than a [GET /health] before it. *)
Theorem subscribe_abc_health (s : Server) (now before later : Z) :
  cron_validate "*/15 * * * *" = true →
  subscriptions s !! "abc"%string = None →
  let r := subscribe cron_validate
             {| req_token := Some "abc"%string; req_intervalMinutes := Some 15 |} now s in
  snd r = [HttpResponse (ok "Subscribed successfully")]
  ∧ (200 ≤ status (ok "Subscribed successfully") < 300)%nat
  ∧ snd (health before s)
    = [HttpResponse {| status := 200;
                       json := JHealth "ok" (health_count s) before |}]
  ∧ snd (health later (fst r))
    = [HttpResponse {| status := 200;
                       json := JHealth "ok" (S (health_count s)) later |}].
Proof.
  intros Hv Hnone r. subst r.
  rewrite subscribe_accepted; [|discriminate|lia|exact Hv].
  split_and!; try reflexivity; try (cbn; lia).
  rewrite health_reports. cbn [snd fst]. unfold health_count at 1. cbn [subscriptions].
  rewrite map_size_insert_None by exact Hnone. reflexivity.
Qed.

(** C7. For every stored subscription and every delivery attempt for its
    token that is rejected: the relay's only effect is the attempted send
    itself (no HTTP response, no further message), its tasks are untouched,
    and, when the error code is one of the two invalid-token codes, the
    subscription is deleted and [GET /health] reports one subscription less;
    with any other error the state, and so the subscription, stays as it
    was. *)
Theorem rejected_send_subscription (s : Server) (token : string)
    (subscription : Subscription) (n t_message now later : Z) (code : option string) :
  subscriptions s !! token = Some subscription →
  let r := sendNotification token n t_message (Rejected code) now s in
  snd r = [FcmSend (message_of token n t_message)]
  ∧ tasks (fst r) = tasks s
  ∧ jobs (fst r) = jobs s
  ∧ (invalid_token code = true →
       subscriptions (fst r) = delete token (subscriptions s)
       ∧ subscriptions (fst r) !! token = None
       ∧ S (health_count (fst r)) = health_count s
       ∧ snd (health later (fst r))
         = [HttpResponse {| status := 200;
                            json := JHealth "ok" (Nat.pred (health_count s)) later |}])
  ∧ (invalid_token code = false →
       fst r = s ∧ subscriptions (fst r) !! token = Some subscription).
Proof.
  intros Hsub r. subst r. unfold sendNotification, settle. cbn [fst snd].
  destruct (invalid_token code) eqn:E.
  - split_and!; try reflexivity; [|discriminate].
    intros _. cbn [subscriptions set_subscriptions].
    assert (size (delete token (subscriptions s)) = Nat.pred (size (subscriptions s)))
      as Hsize by (apply map_size_delete_Some; eauto).
    assert (0 < size (subscriptions s))%nat as Hpos.
    { destruct (size (subscriptions s)) eqn:Hz; [|lia].
      apply map_size_empty_inv in Hz. rewrite Hz, lookup_empty in Hsub. discriminate. }
    split_and!.
    + reflexivity.
    + apply lookup_delete_eq.
    + unfold health_count. cbn [subscriptions set_subscriptions].
      rewrite Hsize. lia.
    + rewrite health_reports. cbn [snd]. unfold health_count.
      cbn [subscriptions set_subscriptions]. rewrite Hsize. reflexivity.
  - split_and!; try reflexivity; [discriminate|].
    intros _. split; [reflexivity | exact Hsub].
Qed.

(** C9. For a token that is subscribed in a reachable state of the relay and
    whose registered cron task [h] is scheduled: [POST /api/unsubscribe]
    answers with status 200 and changes the subscription store only (the
    token's entry is deleted; the task registry and every task are as
    before), so every later firing of the task [h] still sends a
    notification to the token, with the interval the task captured. *)
Theorem unsubscribe_leaves_cron_job (s : Server) (token : string) (h : nat) (j : Job) :
  reachable cron_validate s →
  is_Some (subscriptions s !! token) →
  tasks s !! token = Some h →
  jobs s !! h = Some j →
  job_running j = true →
  let r := unsubscribe {| req_token := Some token; req_intervalMinutes := None |} s in
  snd r = [HttpResponse (ok "Unsubscribed successfully")]
  ∧ fst r = set_subscriptions (delete token (subscriptions s)) s
  ∧ subscriptions (fst r) !! token = None
  ∧ tasks (fst r) = tasks s
  ∧ jobs (fst r) = jobs s
  ∧ ∀ (t_message : Z) (res : SendResult) (t_settle : Z),
      snd (cron_fire h t_message res t_settle (fst r))
      = [FcmSend (message_of token (job_interval j) t_message)].
Proof.
  intros Hr Hsub Hh Hj Hrun r.
  destruct (reachable_well_formed s Hr) as [Hkeys Hreg].
  assert (token ≠ ""%string) as Hne by (apply Hkeys, Hsub).
  destruct (Hreg token h Hh) as (j' & Hj' & Htok).
  assert (j' = j) as -> by congruence.
  assert (r = (set_subscriptions (delete token (subscriptions s)) s,
               [HttpResponse (ok "Unsubscribed successfully")])) as ->.
  { subst r. unfold unsubscribe. cbn [req_token].
    apply truthy_string_Some in Hne. rewrite Hne. reflexivity. }
  cbn [fst snd]. split_and!; try reflexivity.
  - apply lookup_delete_eq.
  - intros t_message res t_settle. unfold cron_fire.
    cbn [jobs set_subscriptions]. rewrite Hj, Hrun, Htok. reflexivity.
Qed.


End Cron.

Lemma subscribe_abc_health_witness :
  let accept := λ _ : string, true in
  accept "*/15 * * * *"%string = true
  ∧ subscriptions init !! "abc"%string = None
  ∧ snd (health 2 (fst (subscribe accept
                          {| req_token := Some "abc"%string;
                             req_intervalMinutes := Some 15 |} 1 init)))
    = [HttpResponse {| status := 200; json := JHealth "ok" 1 2 |}].
Proof.
  intros accept. split_and!.
  - reflexivity.
  - apply lookup_empty.
  - exact (proj2 (proj2 (proj2
      (subscribe_abc_health accept init 1 0 2 eq_refl (lookup_empty _))))).
Defined.

Lemma rejected_send_subscription_witness :
  let accept := λ _ : string, true in
  let s := fst (subscribe accept
                  {| req_token := Some "abc"%string;
                     req_intervalMinutes := Some 15 |} 1 init) in
  let code := Some "messaging/registration-token-not-registered"%string in
  subscriptions s !! "abc"%string = Some {| intervalMinutes := 15; lastSent := 1 |}
  ∧ invalid_token code = true
  ∧ S (health_count (fst (sendNotification "abc" 15 5 (Rejected code) 6 s)))
    = health_count s.
Proof.
  intros accept s code.
  assert (subscriptions s !! "abc"%string
          = Some {| intervalMinutes := 15; lastSent := 1 |}) as Hsub
    by apply lookup_insert_eq.
  split_and!.
  - exact Hsub.
  - reflexivity.
  - pose proof (rejected_send_subscription s "abc" _ 15 5 6 7 code Hsub) as H.
    exact (proj1 (proj2 (proj2 (proj1 (proj2 (proj2 (proj2 H))) eq_refl)))).
Defined.

Lemma unsubscribe_leaves_cron_job_witness :
  let accept := λ _ : string, true in
  let s := fst (subscribe accept
                  {| req_token := Some "abc"%string;
                     req_intervalMinutes := Some 15 |} 1 init) in
  let j := {| job_expression := cronExpression 15; job_token := "abc";
              job_interval := 15; job_running := true |} in
  reachable accept s
  ∧ is_Some (subscriptions s !! "abc"%string)
  ∧ tasks s !! "abc"%string = Some 0%nat
  ∧ jobs s !! 0%nat = Some j
  ∧ job_running j = true
  ∧ snd (cron_fire 0 9 (Resolved "m1") 10
           (fst (unsubscribe {| req_token := Some "abc"%string;
                                req_intervalMinutes := None |} s)))
    = [FcmSend (message_of "abc" 15 9)].
Proof.
  intros accept s j.
  assert (reachable accept s) as Hr
    by exact (reachable_handle accept
                (Subscribe {| req_token := Some "abc"%string;
                              req_intervalMinutes := Some 15 |} 1)
                init (reachable_init accept)).
  assert (subscriptions s !! "abc"%string
          = Some {| intervalMinutes := 15; lastSent := 1 |}) as Hsub
    by apply lookup_insert_eq.
  assert (tasks s !! "abc"%string = Some 0%nat) as Hh by apply lookup_insert_eq.
  assert (jobs s !! 0%nat = Some j) as Hj by reflexivity.
  split_and!; try assumption.
  - eexists. exact Hsub.
  - reflexivity.
  - exact (proj2 (proj2 (proj2 (proj2 (proj2
      (unsubscribe_leaves_cron_job accept s "abc" 0 j Hr
         (ex_intro _ _ Hsub) Hh Hj eq_refl))))) 9 (Resolved "m1") 10).
Defined.

End RelayFacts.


(* ===================================================================== *)
(** ** More on the worker: silence, spacing, the other listeners *)
(* ===================================================================== *)

Module ServiceWorkerMore.

Import ServiceWorker ServiceWorkerFacts.

Local Open Scope Z_scope.

(** A wake-up before the deadline does nothing, in any state. *)
Lemma poll_tick_early (id : positive) (now : Time) (w : Worker) (t : Z) :
  nextNotificationTime w = Some t → Z.pos now < t → poll_tick id now w = (w, []).
Proof.
  intros Hn Hlt. unfold poll_tick.
  destruct (timers w !! id) as [ms|]; [|reflexivity].
  unfold checkAndSendNotification. rewrite Hn.
  change (to_number (Some t)) with t.
  apply Z.leb_gt in Hlt. rewrite Hlt.
  destruct (negb _ || negb _); reflexivity.
Qed.

(** A wake-up of the live timer at or after the deadline of an active
    schedule. *)
Lemma poll_tick_due (w : Worker) (id : positive) (i t : Z) (now : Time) :
  reachable w →
  checkInterval w = Some id →
  notificationInterval w = Some i → 0 < i →
  nextNotificationTime w = Some t → t ≤ Z.pos now →
  poll_tick id now w
  = (set_schedule (Some i) (Some (Z.pos now + i * 60000)) w, [showNotification]).
Proof.
  intros Hr Hc Hi Hpos Hn Hle.
  destruct (reachable_active w i Hr Hi) as (id' & c & Hc' & Ht & Hn').
  assert (id' = id) as -> by congruence.
  assert (t = Z.pos c + i * 60 * 1000) as Et by congruence.
  unfold poll_tick, checkAndSendNotification.
  rewrite Ht, lookup_singleton_eq, Hn, Hi.
  change (to_number (Some t)) with t.
  assert (truthy (Some t) = true) as -> by (apply truthy_Some; lia).
  assert (truthy (Some i) = true) as -> by (apply truthy_Some; lia).
  apply Z.leb_le in Hle. rewrite Hle. cbn [negb orb].
  replace (i * 60 * 1000) with (i * 60000) by lia. reflexivity.
Qed.

(** While the clock reads less than the deadline, no sequence of timer
    wake-ups shows anything or changes the worker. *)
Theorem quiet_before_deadline (w : Worker) (t : Z) (events : list Event) :
  nextNotificationTime w = Some t →
  Forall (λ e, timer_before t e = true) events →
  run events w = (w, []).
Proof.
  intros Hn Hall. induction Hall as [|e rest He _ IH]; [reflexivity|].
  destruct e as [m ports t1 t2|id now]; [discriminate|].
  cbn [timer_before] in He. apply Z.ltb_lt in He.
  cbn [run handle]. rewrite (poll_tick_early id now w t Hn He).
  cbn [fst snd]. rewrite IH. reflexivity.
Qed.

Lemma quiet_before_deadline_witness :
  let w := fst (startNotificationSchedule 1 1000%positive 1000%positive init) in
  let events := [TimerEvent 1%positive 11000%positive;
                 TimerEvent 1%positive 21000%positive;
                 TimerEvent 1%positive 60999%positive] in
  nextNotificationTime w = Some 61000
  ∧ Forall (λ e, timer_before 61000 e = true) events
  ∧ run events w = (w, []).
Proof.
  intros w events.
  assert (Forall (λ e, timer_before 61000 e = true) events) as Hall
    by (repeat constructor).
  split_and!; [reflexivity | exact Hall |].
  exact (quiet_before_deadline w 61000 events eq_refl Hall).
Defined.

(** After the poll loop has shown a notification at clock reading [now], its
    wake-ups show nothing as long as the clock reads less than
    [now + i * 60000]: two notifications of the loop are a full interval
    apart, however late the first one was. *)
Theorem no_refire_within_interval (w : Worker) (id : positive) (i t : Z)
    (now : Time) (events : list Event) :
  reachable w →
  checkInterval w = Some id →
  notificationInterval w = Some i → 0 < i →
  nextNotificationTime w = Some t → t ≤ Z.pos now →
  Forall (λ e, timer_before (Z.pos now + i * 60000) e = true) events →
  let fired := poll_tick id now w in
  snd fired = [showNotification]
  ∧ run events (fst fired) = (fst fired, []).
Proof.
  intros Hr Hc Hi Hpos Hn Hle Hall fired. subst fired.
  rewrite (poll_tick_due w id i t now Hr Hc Hi Hpos Hn Hle). cbn [fst snd].
  split; [reflexivity|].
  apply (quiet_before_deadline _ (Z.pos now + i * 60000)); [reflexivity | exact Hall].
Qed.

Lemma no_refire_within_interval_witness :
  let w := fst (startNotificationSchedule 1 1000%positive 1000%positive init) in
  let events := [TimerEvent 1%positive 85000%positive;
                 TimerEvent 1%positive 134999%positive] in
  reachable w
  ∧ 61000 ≤ 75000
  ∧ Forall (λ e, timer_before (75000 + 1 * 60000) e = true) events
  ∧ run events (fst (poll_tick 1%positive 75000%positive w))
    = (fst (poll_tick 1%positive 75000%positive w), []).
Proof.
  intros w events.
  assert (reachable w) as Hr
    by exact (reachable_handle
                (MessageEvent (START_NOTIFICATIONS 1) [] 1000%positive 1000%positive)
                init reachable_init).
  assert (61000 ≤ 75000) as Hle by lia.
  assert (Forall (λ e, timer_before (75000 + 1 * 60000) e = true) events) as Hall
    by (repeat constructor).
  split_and!; [exact Hr | exact Hle | exact Hall |].
  exact (proj2 (no_refire_within_interval w 1%positive 1 61000 75000%positive events
                  Hr eq_refl eq_refl eq_refl eq_refl Hle Hall)).
Defined.

(** A worker without schedule and without timer ignores everything but a
    [START_NOTIFICATIONS]. *)
Lemma idle_handle (e : Event) (w : Worker) :
  notificationInterval w = None → nextNotificationTime w = None →
  checkInterval w = None → timers w = ∅ →
  is_start e = false →
  fst (handle e w) = w ∧ Forall (λ eff, is_show eff = false) (snd (handle e w)).
Proof.
  intros Hi Hn Hc Ht He.
  destruct e as [m ports t1 t2|id now].
  - destruct m as [i| | |]; [discriminate|..]; cbn [handle on_message fst snd].
    + split; [|constructor].
      unfold stopNotificationSchedule, set_schedule. rewrite Hc.
      destruct w as [a b c d k]. cbn in Hi, Hn. subst. reflexivity.
    + destruct ports as [|p ports]; cbn [fst snd]; split; auto.
    + split; [reflexivity | constructor].
  - cbn [handle]. unfold poll_tick. rewrite Ht, lookup_empty. split; [reflexivity|constructor].
Qed.

(** After [stopNotificationSchedule], and until the next
    [START_NOTIFICATIONS], no message and no timer wake-up shows a
    notification or changes the worker, and no periodic sync shows one. *)
Theorem stop_then_silence (w : Worker) (events : list Event)
    (supported : bool) (sync_tag : string) :
  reachable w →
  Forall (λ e, is_start e = false) events →
  let r := run events (stopNotificationSchedule w) in
  fst r = stopNotificationSchedule w
  ∧ Forall (λ eff, is_show eff = false) (snd r)
  ∧ on_periodicsync supported sync_tag (fst r) = [].
Proof.
  intros Hr Hall r. subst r.
  destruct (stop_fields w) as (Hi & Hn & Hc & _).
  pose proof (coherent_stop w (reachable_coherent w Hr)) as Ht.
  set (v := stopNotificationSchedule w) in *. clearbody v.
  assert (fst (run events v) = v ∧ Forall (λ eff, is_show eff = false) (snd (run events v)))
    as [Hfst Hsnd].
  { induction Hall as [|e rest He _ IH]; [split; [reflexivity|constructor]|].
    destruct (idle_handle e v Hi Hn Hc Ht He) as [H1 H2].
    cbn [run fst snd]. rewrite H1. destruct IH as [IH1 IH2].
    split; [exact IH1 | apply Forall_app; split; assumption]. }
  split_and!; [exact Hfst | exact Hsnd |].
  rewrite Hfst. unfold on_periodicsync. rewrite Hi. cbn [truthy].
  rewrite andb_false_r. destruct supported; reflexivity.
Qed.

Lemma stop_then_silence_witness :
  let w := fst (startNotificationSchedule 5 1000%positive 1000%positive init) in
  let events := [TimerEvent 1%positive 301000%positive;
                 MessageEvent CHECK_SCHEDULE [3%nat] 1%positive 1%positive;
                 TimerEvent 1%positive 601000%positive] in
  reachable w
  ∧ Forall (λ e, is_start e = false) events
  ∧ Forall (λ eff, is_show eff = false) (snd (run events (stopNotificationSchedule w))).
Proof.
  intros w events.
  assert (reachable w) as Hr
    by exact (reachable_handle
                (MessageEvent (START_NOTIFICATIONS 5) [] 1000%positive 1000%positive)
                init reachable_init).
  assert (Forall (λ e, is_start e = false) events) as Hall by (repeat constructor).
  split_and!; [exact Hr | exact Hall |].
  exact (proj1 (proj2 (stop_then_silence w events true "reminder-sync" Hr Hall))).
Defined.

(** In every state the worker reaches, a live timer is the one held in
    [checkInterval], and it captured the current interval in milliseconds:
    there is never a second poll loop, and never one left over that
    [stopNotificationSchedule] could not cancel. *)
Theorem at_most_one_poll_timer (w : Worker) (id : positive) (intervalMs : Z) :
  reachable w →
  timers w !! id = Some intervalMs →
  checkInterval w = Some id
  ∧ (∃ i, notificationInterval w = Some i ∧ intervalMs = i * 60000)
  ∧ size (timers w) = 1%nat
  ∧ timers (stopNotificationSchedule w) = ∅.
Proof.
  intros Hr Hid. pose proof (reachable_coherent w Hr) as Hco.
  pose proof (coherent_stop w Hco) as Hstop.
  unfold coherent in Hco. destruct (checkInterval w) as [id'|].
  - destruct Hco as (i & c & Hi & Hn & Ht). rewrite Ht in Hid.
    apply lookup_singleton_Some in Hid as [-> <-].
    split_and!; [reflexivity | exists i; split; [exact Hi | lia] | | exact Hstop].
    rewrite Ht. apply map_size_singleton.
  - destruct Hco as (_ & _ & Ht). rewrite Ht, lookup_empty in Hid. discriminate.
Qed.

Lemma at_most_one_poll_timer_witness :
  let w1 := fst (startNotificationSchedule 5 1000%positive 1000%positive init) in
  let w := fst (startNotificationSchedule 15 2000%positive 2000%positive w1) in
  reachable w
  ∧ timers w !! 2%positive = Some 900000
  ∧ checkInterval w = Some 2%positive
  ∧ size (timers w) = 1%nat.
Proof.
  intros w1 w.
  assert (reachable w) as Hr.
  { exact (reachable_handle
             (MessageEvent (START_NOTIFICATIONS 15) [] 2000%positive 2000%positive) _
             (reachable_handle
                (MessageEvent (START_NOTIFICATIONS 5) [] 1000%positive 1000%positive)
                init reachable_init)). }
  assert (timers w !! 2%positive = Some 900000) as Hid by reflexivity.
  pose proof (at_most_one_poll_timer w 2%positive 900000 Hr Hid) as H.
  split_and!; [exact Hr | exact Hid | exact (proj1 H) | exact (proj1 (proj2 (proj2 H)))].
Defined.

(** The [push] listener shows exactly one notification for every push event:
    - the reminder of the scheduler, when the event has no data, when its
      JSON value has no [notification] object, and when the data is not JSON
      (or is [null]) and its text is empty;
    - the reminder with the text as body, when the data is not JSON (or is
      [null]) and its text is not empty;
    - for JSON with a [notification] object, the reminder in which every
      field the object carries replaces the default, the others staying. *)
Theorem push_shows_one (data : option PushData) :
  (data = None →
   on_push data
   = [ShowNotification {| title := "Reminder Notification";
                          body := "This is your scheduled reminder!";
                          icon := "/icon-192x192.jpg";
                          badge := "/icon-192x192.jpg";
                          tag := "reminder";
                          requireInteraction := false;
                          vibrate := [200; 100; 200] |}])
  ∧ (∀ d, data = Some d →
          push_json d = JsonObject None ∨ push_json d = JsonOther
          ∨ ((push_json d = NotJson ∨ push_json d = JsonNull)
             ∧ push_text d = ""%string) →
          on_push data
          = [ShowNotification {| title := "Reminder Notification";
                                 body := "This is your scheduled reminder!";
                                 icon := "/icon-192x192.jpg";
                                 badge := "/icon-192x192.jpg";
                                 tag := "reminder";
                                 requireInteraction := false;
                                 vibrate := [200; 100; 200] |}])
  ∧ (∀ d, data = Some d →
          push_json d = NotJson ∨ push_json d = JsonNull →
          push_text d ≠ ""%string →
          on_push data
          = [ShowNotification {| title := "Reminder Notification";
                                 body := push_text d;
                                 icon := "/icon-192x192.jpg";
                                 badge := "/icon-192x192.jpg";
                                 tag := "reminder";
                                 requireInteraction := false;
                                 vibrate := [200; 100; 200] |}])
  ∧ (∀ d o, data = Some d →
            push_json d = JsonObject (Some o) →
            on_push data
            = [ShowNotification
                 {| title := default "Reminder Notification"%string (o_title o);
                    body := default "This is your scheduled reminder!"%string (o_body o);
                    icon := default "/icon-192x192.jpg"%string (o_icon o);
                    badge := default "/icon-192x192.jpg"%string (o_badge o);
                    tag := default "reminder"%string (o_tag o);
                    requireInteraction := default false (o_requireInteraction o);
                    vibrate := default [200; 100; 200] (o_vibrate o) |}]).
Proof.
  split_and!.
  - intros ->. reflexivity.
  - intros d -> H. unfold on_push, push_text_fallback.
    destruct H as [->|[->|[[->| ->] ->]]]; reflexivity.
  - intros d -> H Hne. unfold on_push, push_text_fallback.
    apply String.eqb_neq in Hne. destruct H as [->| ->]; rewrite Hne; reflexivity.
  - intros d o -> Ho. unfold on_push. rewrite Ho. reflexivity.
Qed.

Lemma push_shows_one_witness :
  let d := {| push_json := NotJson; push_text := "Tea time" |} in
  push_text d ≠ ""%string
  ∧ on_push (Some d)
    = [ShowNotification {| title := "Reminder Notification";
                           body := "Tea time";
                           icon := "/icon-192x192.jpg";
                           badge := "/icon-192x192.jpg";
                           tag := "reminder";
                           requireInteraction := false;
                           vibrate := [200; 100; 200] |}].
Proof.
  intros d.
  assert (push_text d ≠ ""%string) as Hne by discriminate.
  split; [exact Hne|].
  exact (proj1 (proj2 (proj2 (push_shows_one (Some d)))) d eq_refl
           (or_introl eq_refl) Hne).
Defined.

(** The loop of [on_activate], on any list of names. *)
Lemma delete_others_lookup {C : Type} (names : list string) (caches : gmap string C)
    (name : string) :
  foldr (λ cacheName cs,
           if bool_decide (cacheName ≠ CACHE_NAME) then delete cacheName cs else cs)
        caches names !! name
  = if bool_decide (name ∈ names ∧ name ≠ CACHE_NAME) then None else caches !! name.
Proof.
  induction names as [|a names IH]; cbn [foldr].
  - rewrite bool_decide_eq_false_2; [reflexivity|]. intros [H _]. inversion H.
  - destruct (bool_decide (a ≠ CACHE_NAME)) eqn:Ea.
    + apply bool_decide_eq_true in Ea.
      destruct (decide (a = name)) as [->|Hne].
      * rewrite lookup_delete_eq, bool_decide_eq_true_2; [reflexivity|].
        split; [left | exact Ea].
      * rewrite lookup_delete_ne by exact Hne. rewrite IH.
        rewrite (bool_decide_ext (name ∈ names ∧ name ≠ CACHE_NAME)
                   (name ∈ a :: names ∧ name ≠ CACHE_NAME)); [reflexivity|].
        rewrite elem_of_cons. split.
        -- intros [H Hn]. split; [right; exact H | exact Hn].
        -- intros [[->|H] Hn]; [contradiction | split; [exact H | exact Hn]].
    + apply bool_decide_eq_false in Ea. rewrite IH.
      rewrite (bool_decide_ext (name ∈ names ∧ name ≠ CACHE_NAME)
                 (name ∈ a :: names ∧ name ≠ CACHE_NAME)); [reflexivity|].
      rewrite elem_of_cons.
      split; [tauto|]. intros [[->|H] Hn]; [|tauto].
      exfalso. apply Ea. exact Hn.
Qed.

(** [activate] leaves the cache storage with at most the cache named
    [CACHE_NAME], which it does not touch; every other cache is deleted.
    Running it again changes nothing. *)
Theorem activate_keeps_current_cache {C : Type} (caches : gmap string C) (name : string) :
  on_activate caches !! name
  = (if bool_decide (name = CACHE_NAME) then caches !! name else None)
  ∧ on_activate (on_activate caches) = on_activate caches
  ∧ (size (on_activate caches) ≤ 1)%nat.
Proof.
  assert (∀ (cs : gmap string C) k,
            on_activate cs !! k
            = if bool_decide (k = CACHE_NAME) then cs !! k else None) as Hlook.
  { intros cs k. unfold on_activate. rewrite delete_others_lookup.
    destruct (decide (k = CACHE_NAME)) as [->|Hne].
    - rewrite bool_decide_eq_false_2 by tauto.
      rewrite bool_decide_eq_true_2 by reflexivity. reflexivity.
    - rewrite (bool_decide_eq_false_2 (k = CACHE_NAME)) by exact Hne.
      destruct (cs !! k) as [x|] eqn:E.
      + rewrite bool_decide_eq_true_2; [reflexivity|]. split; [|exact Hne].
        apply list_elem_of_In, in_map_iff. exists (k, x). split; [reflexivity|].
        apply list_elem_of_In, elem_of_map_to_list, E.
      + destruct (bool_decide _); reflexivity. }
  split_and!.
  - apply Hlook.
  - apply map_eq. intros k. rewrite !Hlook. destruct (bool_decide _); reflexivity.
  - destruct (caches !! CACHE_NAME) as [x|] eqn:E.
    + assert (on_activate caches = {[ CACHE_NAME := x ]}) as ->.
      { apply map_eq. intros k. rewrite Hlook.
        destruct (decide (k = CACHE_NAME)) as [->|Hne].
        - rewrite bool_decide_eq_true_2 by reflexivity.
          rewrite lookup_singleton_eq. exact E.
        - rewrite bool_decide_eq_false_2 by exact Hne.
          rewrite lookup_singleton_ne by congruence. reflexivity. }
      rewrite map_size_singleton. lia.
    + assert (on_activate caches = ∅) as ->.
      { apply map_eq. intros k. rewrite Hlook, lookup_empty.
        destruct (decide (k = CACHE_NAME)) as [->|Hne].
        - rewrite bool_decide_eq_true_2 by reflexivity. exact E.
        - rewrite bool_decide_eq_false_2 by exact Hne. reflexivity. }
      rewrite map_size_empty. lia.
Qed.

End ServiceWorkerMore.


(* ===================================================================== *)
(** ** The two push paths show the same notification *)
(* ===================================================================== *)

Module MessagingWorkerFacts.

Import MessagingWorker.

Local Open Scope Z_scope.

Lemma or_else_nonempty (field : PayloadNotification → option string)
    (n : option PayloadNotification) (fallback : string) :
  fallback ≠ ""%string → or_else field n fallback ≠ ""%string.
Proof.
  intros Hf. unfold or_else. destruct (n ≫= field) as [v|]; [|exact Hf].
  destruct (String.eqb v "") eqn:E; [exact Hf|]. apply String.eqb_neq, E.
Qed.

Lemma or_else_given (field : PayloadNotification → option string)
    (n : PayloadNotification) (fallback : string) :
  (∀ v, field n = Some v → v ≠ ""%string) →
  or_else field (Some n) fallback = default fallback (field n).
Proof.
  intros Hv. unfold or_else. cbn. destruct (field n) as [v|]; [|reflexivity].
  cbn. destruct (String.eqb v "") eqn:E; [|reflexivity].
  apply String.eqb_eq in E. destruct (Hv v eq_refl E).
Qed.

(** Whatever the payload, the notification of a background message has a
    non-empty title, body and icon, the tag ["reminder"] and the fixed badge,
    and carries the payload's [data]; an empty string in the payload is
    replaced like a missing field. *)
Theorem background_message_never_empty {D : Type} (payload : Payload D) :
  let n := onBackgroundMessage payload in
  s_title n ≠ ""%string
  ∧ s_body n ≠ ""%string
  ∧ s_icon n ≠ ""%string
  ∧ s_tag n = "reminder"%string
  ∧ s_badge n = "/icon-192x192.jpg"%string
  ∧ s_data n = data payload
  ∧ (notification payload ≫= p_title = Some ""%string →
     s_title n = "Reminder Notification"%string).
Proof.
  cbn. split_and!; try reflexivity; try (apply or_else_nonempty; discriminate).
  intros H. unfold or_else. rewrite H. reflexivity.
Qed.

Lemma background_message_never_empty_witness :
  let payload : Payload unit :=
    {| notification := Some {| p_title := Some ""%string;
                               p_body := Some "Tea time"%string;
                               p_icon := None |};
       data := None |} in
  notification payload ≫= p_title = Some ""%string
  ∧ s_title (onBackgroundMessage payload) = "Reminder Notification"%string.
Proof.
  intros payload. split; [reflexivity|].
  exact (proj2 (proj2 (proj2 (proj2 (proj2 (proj2
    (background_message_never_empty payload)))))) eq_refl).
Defined.

(** For a payload whose notification gives a title, a body and an icon that
    are missing or non-empty, the [push] listener of [sw.js] and the
    background handler of the messaging worker show the same title, body,
    icon, badge, tag, interaction flag and vibration. *)
Theorem push_paths_agree {D : Type} (n : PayloadNotification) (d : option D)
    (text : string) :
  (∀ v, p_title n = Some v → v ≠ ""%string) →
  (∀ v, p_body n = Some v → v ≠ ""%string) →
  (∀ v, p_icon n = Some v → v ≠ ""%string) →
  let shown := onBackgroundMessage {| notification := Some n; data := d |} in
  ServiceWorker.on_push
    (Some {| ServiceWorker.push_json :=
               ServiceWorker.JsonObject
                 (Some {| ServiceWorker.o_title := p_title n;
                          ServiceWorker.o_body := p_body n;
                          ServiceWorker.o_icon := p_icon n;
                          ServiceWorker.o_badge := None;
                          ServiceWorker.o_tag := None;
                          ServiceWorker.o_requireInteraction := None;
                          ServiceWorker.o_vibrate := None |});
             ServiceWorker.push_text := text |})
  = [ServiceWorker.ShowNotification
       {| ServiceWorker.title := s_title shown;
          ServiceWorker.body := s_body shown;
          ServiceWorker.icon := s_icon shown;
          ServiceWorker.badge := s_badge shown;
          ServiceWorker.tag := s_tag shown;
          ServiceWorker.requireInteraction := s_requireInteraction shown;
          ServiceWorker.vibrate := s_vibrate shown |}].
Proof.
  intros Ht Hb Hi shown. subst shown.
  unfold onBackgroundMessage. cbn [s_title s_body s_icon s_badge s_tag
                                    s_requireInteraction s_vibrate notification].
  rewrite (or_else_given p_title n _ Ht), (or_else_given p_body n _ Hb),
    (or_else_given p_icon n _ Hi).
  reflexivity.
Qed.

Lemma push_paths_agree_witness :
  let n := {| p_title := Some "Reminder Notification"%string;
              p_body := Some "This is your scheduled reminder! (Every 15 minutes)"%string;
              p_icon := None |} in
  (∀ v, p_title n = Some v → v ≠ ""%string)
  ∧ (∀ v, p_body n = Some v → v ≠ ""%string)
  ∧ (∀ v, p_icon n = Some v → v ≠ ""%string)
  ∧ ServiceWorker.on_push
      (Some {| ServiceWorker.push_json :=
                 ServiceWorker.JsonObject
                   (Some {| ServiceWorker.o_title := p_title n;
                            ServiceWorker.o_body := p_body n;
                            ServiceWorker.o_icon := p_icon n;
                            ServiceWorker.o_badge := None;
                            ServiceWorker.o_tag := None;
                            ServiceWorker.o_requireInteraction := None;
                            ServiceWorker.o_vibrate := None |});
               ServiceWorker.push_text := ""%string |})
    = [ServiceWorker.ShowNotification
         {| ServiceWorker.title := "Reminder Notification";
            ServiceWorker.body := "This is your scheduled reminder! (Every 15 minutes)";
            ServiceWorker.icon := "/icon-192x192.jpg";
            ServiceWorker.badge := "/icon-192x192.jpg";
            ServiceWorker.tag := "reminder";
            ServiceWorker.requireInteraction := false;
            ServiceWorker.vibrate := [200; 100; 200] |}].
Proof.
  intros n.
  assert (∀ v, p_title n = Some v → v ≠ ""%string) as Ht by (intros v [= <-]; discriminate).
  assert (∀ v, p_body n = Some v → v ≠ ""%string) as Hb by (intros v [= <-]; discriminate).
  assert (∀ v, p_icon n = Some v → v ≠ ""%string) as Hi by (intros v [=]).
  split_and!; [exact Ht | exact Hb | exact Hi |].
  exact (push_paths_agree n (None : option unit) "" Ht Hb Hi).
Defined.

End MessagingWorkerFacts.


(* ===================================================================== *)
(** ** More on the relay: refusals, failures, and what its tasks keep *)
(* ===================================================================== *)

Module RelayMore.

Import Relay RelayFacts.

Local Open Scope Z_scope.

(** The job list after the task stored for [token], if any, was stopped. *)
Lemma stop_existing_jobs (token : string) (s : Server) (h : nat) (j : Job) :
  one_task_per_token s →
  jobs (match tasks s !! token with
        | Some existingJob => stop_job existingJob s
        | None => s
        end) !! h = Some j →
  job_running j = true →
  jobs s !! h = Some j ∧ job_token j ≠ token.
Proof.
  intros Hone Hj Hrun. destruct (tasks s !! token) as [h0|] eqn:Eh.
  - cbn [stop_job jobs] in Hj. destruct (decide (h0 = h)) as [->|Hne].
    + rewrite list_lookup_alter_eq in Hj.
      destruct (jobs s !! h) as [j0|]; [|discriminate].
      injection Hj as <-. discriminate.
    + rewrite list_lookup_alter_ne in Hj by exact Hne.
      split; [exact Hj|]. intros Htok.
      pose proof (Hone h j Hj Hrun) as Hreg. rewrite Htok, Eh in Hreg. congruence.
  - split; [exact Hj|]. intros Htok.
    pose proof (Hone h j Hj Hrun) as Hreg. rewrite Htok, Eh in Hreg. discriminate.
Qed.

(** Every task of the list after stopping is a task of the list before, as
    it was or stopped. *)
Lemma stop_existing_origin (token : string) (s : Server) (h : nat) (j : Job) :
  jobs (match tasks s !! token with
        | Some existingJob => stop_job existingJob s
        | None => s
        end) !! h = Some j →
  ∃ j0, jobs s !! h = Some j0 ∧ (j = j0 ∨ j = stopped j0).
Proof.
  intros Hj. destruct (tasks s !! token) as [h0|]; [|eauto].
  cbn [stop_job jobs] in Hj. destruct (decide (h0 = h)) as [->|Hne].
  - rewrite list_lookup_alter_eq in Hj.
    destruct (jobs s !! h) as [j0|]; [|discriminate].
    injection Hj as <-. eauto.
  - rewrite list_lookup_alter_ne in Hj by exact Hne. eauto.
Qed.

Lemma stop_existing_keeps (token : string) (s : Server) (h : nat) (j : Job) :
  jobs s !! h = Some j →
  ∃ j', jobs (match tasks s !! token with
              | Some existingJob => stop_job existingJob s
              | None => s
              end) !! h = Some j'
        ∧ (j' = j ∨ j' = stopped j).
Proof.
  intros Hj. destruct (tasks s !! token) as [h0|]; [|eauto].
  cbn [stop_job jobs]. destruct (decide (h0 = h)) as [->|Hne].
  - rewrite list_lookup_alter_eq, Hj. cbn. eauto.
  - rewrite list_lookup_alter_ne by exact Hne. eauto.
Qed.

Section Cron.

Variable cron_validate : string → bool.

(** The scheduled tasks after [scheduleNotification]: the new one, or one
    that was scheduled before and belongs to another token. *)
Lemma scheduleNotification_running (token : string) (n : Z) (s : Server)
    (h : nat) (j : Job) :
  one_task_per_token s →
  jobs (fst (scheduleNotification cron_validate token n s)) !! h = Some j →
  job_running j = true →
  (cron_validate (cronExpression n) = true
   ∧ tasks (fst (scheduleNotification cron_validate token n s)) !! token = Some h
   ∧ j = {| job_expression := cronExpression n; job_token := token;
            job_interval := n; job_running := true |})
  ∨ (jobs s !! h = Some j ∧ job_token j ≠ token).
Proof.
  intros Hone. unfold scheduleNotification.
  set (s1 := match tasks s !! token with
             | Some existingJob => stop_job existingJob s
             | None => s
             end).
  assert (length (jobs s1) = length (jobs s)) as Hlen.
  { subst s1. destruct (tasks s !! token); [apply length_alter | reflexivity]. }
  destruct (cron_validate (cronExpression n)); cbn [fst jobs tasks].
  - intros Hj Hrun. apply lookup_snoc_Some in Hj as [[_ Hj]|[-> <-]].
    + right. exact (stop_existing_jobs token s h j Hone Hj Hrun).
    + left. split_and!; [reflexivity | apply lookup_insert_eq | reflexivity].
  - intros Hj Hrun. right. exact (stop_existing_jobs token s h j Hone Hj Hrun).
Qed.

Lemma scheduleNotification_tasks (token other : string) (n : Z) (s : Server) :
  other ≠ token →
  tasks (fst (scheduleNotification cron_validate token n s)) !! other
  = tasks s !! other.
Proof.
  intros Hne. unfold scheduleNotification.
  destruct (cron_validate _), (tasks s !! token); cbn [fst tasks stop_job];
    rewrite ?lookup_insert_ne by congruence; reflexivity.
Qed.

Lemma scheduleNotification_origin (token : string) (n : Z) (s : Server)
    (h : nat) (j : Job) :
  jobs (fst (scheduleNotification cron_validate token n s)) !! h = Some j →
  j = {| job_expression := cronExpression n; job_token := token;
         job_interval := n; job_running := true |}
  ∨ ∃ j0, jobs s !! h = Some j0 ∧ (j = j0 ∨ j = stopped j0).
Proof.
  unfold scheduleNotification.
  destruct (cron_validate (cronExpression n)); cbn [fst jobs].
  - intros Hj. apply lookup_snoc_Some in Hj as [[_ Hj]|[_ <-]].
    + right. exact (stop_existing_origin token s h j Hj).
    + left. reflexivity.
  - intros Hj. right. exact (stop_existing_origin token s h j Hj).
Qed.

Lemma scheduleNotification_keeps (token : string) (n : Z) (s : Server)
    (h : nat) (j : Job) :
  jobs s !! h = Some j →
  ∃ j', jobs (fst (scheduleNotification cron_validate token n s)) !! h = Some j'
        ∧ (j' = j ∨ j' = stopped j).
Proof.
  intros Hj. destruct (stop_existing_keeps token s h j Hj) as (j' & Hj' & Hor).
  exists j'. split; [|exact Hor]. unfold scheduleNotification.
  destruct (cron_validate (cronExpression n)); cbn [fst jobs]; [|exact Hj'].
  rewrite lookup_app_l by (eapply lookup_lt_Some, Hj'). exact Hj'.
Qed.

Lemma consistent_init : consistent init.
Proof.
  split_and!.
  - apply well_formed_init.
  - intros h j Hj. cbn in Hj. discriminate.
  - intros h j sub Hj. cbn in Hj. discriminate.
  - intros h j Hj. cbn in Hj. discriminate.
Qed.

(** Replacing the store by one whose entries come from the old store with
    their intervals keeps the state consistent. *)
Lemma consistent_set_subscriptions (m : gmap string Subscription) (s : Server) :
  consistent s →
  (∀ k sub', m !! k = Some sub' →
     ∃ sub, subscriptions s !! k = Some sub
            ∧ intervalMinutes sub' = intervalMinutes sub) →
  consistent (set_subscriptions m s).
Proof.
  intros (Hwf & Hone & Hfol & Hexp) Hm. split_and!.
  - apply well_formed_set_subscriptions; [exact Hwf|].
    intros k [sub' Hk]. destruct (Hm k sub' Hk) as (sub & Hs & _). eauto.
  - exact Hone.
  - intros h j sub' Hj Hrun Hsub. cbn in Hsub.
    destruct (Hm _ sub' Hsub) as (sub & Hs & ->). exact (Hfol h j sub Hj Hrun Hs).
  - exact Hexp.
Qed.

Lemma consistent_settle (token : string) (r : SendResult) (now : Z) (s : Server) :
  consistent s → consistent (settle token r now s).
Proof.
  intros Hs. unfold settle. destruct r as [response|code].
  - destruct (subscriptions s !! token) as [sub|] eqn:E; [|exact Hs].
    apply consistent_set_subscriptions; [exact Hs|].
    intros k sub' Hk. apply lookup_insert_Some in Hk as [[<- <-]|[_ Hk]]; eauto.
  - destruct (invalid_token code); [|exact Hs].
    apply consistent_set_subscriptions; [exact Hs|].
    intros k sub' Hk. apply lookup_delete_Some in Hk as [_ Hk]. eauto.
Qed.

Lemma consistent_subscribe (b : Body) (now : Z) (s : Server) :
  consistent s → consistent (fst (subscribe cron_validate b now s)).
Proof.
  intros Hs. pose proof Hs as (Hwf & Hone & Hfol & Hexp).
  pose proof (well_formed_subscribe cron_validate b now s Hwf) as Hwf'.
  revert Hwf'. unfold subscribe.
  destruct (truthy_string (req_token b)) eqn:Et; [|intros _; exact Hs].
  destruct (truthy_number (req_intervalMinutes b)) eqn:En; [|intros _; exact Hs].
  cbn [negb orb].
  destruct (req_token b) as [token|]; [|intros _; exact Hs].
  destruct (req_intervalMinutes b) as [n|]; [|intros _; exact Hs].
  unfold parseInt.
  set (s0 := set_subscriptions _ s).
  assert (one_task_per_token s0) as Hone0 by exact Hone.
  pose proof (scheduleNotification_running token n s0) as Hrunning.
  pose proof (scheduleNotification_origin token n s0) as Horigin.
  pose proof (λ other, scheduleNotification_tasks token other n s0) as Htasks.
  pose proof (scheduleNotification_subscriptions cron_validate token n s0) as Hsubs.
  destruct (scheduleNotification cron_validate token n s0) as [s2 c].
  cbn [fst] in Hrunning, Horigin, Htasks, Hsubs.
  assert (∀ out1 out2 : list Effect,
            fst (match c with
                 | Returned => (s2, out1)
                 | Threw => (s2, out2)
                 end) = s2) as -> by (destruct c; reflexivity).
  intros Hwf2. split_and!.
  - exact Hwf2.
  - intros h j Hj Hrun.
    destruct (Hrunning h j Hone0 Hj Hrun) as [(_ & Hreg & ->)|[Hj0 Hne]].
    + exact Hreg.
    + rewrite (Htasks (job_token j) Hne). exact (Hone h j Hj0 Hrun).
  - intros h j sub Hj Hrun Hsub. rewrite Hsubs in Hsub.
    destruct (Hrunning h j Hone0 Hj Hrun) as [(_ & _ & ->)|[Hj0 Hne]].
    + cbn in Hsub. rewrite lookup_insert_eq in Hsub. injection Hsub as <-. reflexivity.
    + cbn in Hsub. rewrite lookup_insert_ne in Hsub by congruence.
      exact (Hfol h j sub Hj0 Hrun Hsub).
  - intros h j Hj.
    destruct (Horigin h j Hj) as [->|(j0 & Hj0 & [->| ->])].
    + reflexivity.
    + exact (Hexp h j0 Hj0).
    + exact (Hexp h j0 Hj0).
Qed.

Lemma consistent_unsubscribe (b : Body) (s : Server) :
  consistent s → consistent (fst (unsubscribe b s)).
Proof.
  intros Hs. unfold unsubscribe.
  destruct (truthy_string (req_token b)); [|exact Hs]. cbn [negb].
  destruct (req_token b) as [token|]; [|exact Hs].
  apply consistent_set_subscriptions; [exact Hs|].
  intros k sub' Hk. apply lookup_delete_Some in Hk as [_ Hk]. eauto.
Qed.

Lemma consistent_handle (e : Event) (s : Server) :
  consistent s → consistent (fst (handle cron_validate e s)).
Proof.
  intros Hs. destruct e as [b now|b|now|h tm r ts|token r now]; cbn [handle].
  - apply consistent_subscribe, Hs.
  - apply consistent_unsubscribe, Hs.
  - exact Hs.
  - unfold cron_fire. destruct (jobs s !! h) as [j|]; [|exact Hs].
    destruct (job_running j); [|exact Hs]. apply consistent_settle, Hs.
  - apply consistent_settle, Hs.
Qed.

Lemma reachable_consistent (s : Server) :
  reachable cron_validate s → consistent s.
Proof.
  induction 1 as [|e s _ IH].
  - apply consistent_init.
  - apply consistent_handle, IH.
Qed.

(** In every reachable state of the relay, two scheduled tasks for the same
    token are one task, the one the registry holds for the token: a token
    never has two cron tasks firing. *)
Theorem one_scheduled_task_per_token (s : Server) (h1 h2 : nat) (j1 j2 : Job) :
  reachable cron_validate s →
  jobs s !! h1 = Some j1 → job_running j1 = true →
  jobs s !! h2 = Some j2 → job_running j2 = true →
  job_token j1 = job_token j2 →
  h1 = h2 ∧ tasks s !! job_token j1 = Some h1.
Proof.
  intros Hr Hj1 Hr1 Hj2 Hr2 Htok.
  destruct (reachable_consistent s Hr) as (_ & Hone & _).
  pose proof (Hone h1 j1 Hj1 Hr1) as H1. pose proof (Hone h2 j2 Hj2 Hr2) as H2.
  rewrite <- Htok in H2. split; [congruence | exact H1].
Qed.

(** In every reachable state of the relay, a scheduled task whose token is
    subscribed fires with the interval stored for the token, on the cron
    expression of that interval: the message it sends names the stored
    interval. *)
Theorem fired_interval_is_stored (s : Server) (h : nat) (j : Job)
    (subscription : Subscription) (t_message : Z) (r : SendResult) (t_settle : Z) :
  reachable cron_validate s →
  jobs s !! h = Some j → job_running j = true →
  subscriptions s !! job_token j = Some subscription →
  snd (cron_fire h t_message r t_settle s)
  = [FcmSend (message_of (job_token j) (intervalMinutes subscription) t_message)]
  ∧ job_expression j = cronExpression (intervalMinutes subscription).
Proof.
  intros Hr Hj Hrun Hsub.
  destruct (reachable_consistent s Hr) as (_ & _ & Hfol & Hexp).
  pose proof (Hfol h j subscription Hj Hrun Hsub) as Hint.
  split.
  - unfold cron_fire. rewrite Hj, Hrun. cbn [sendNotification snd].
    rewrite Hint. reflexivity.
  - rewrite (Hexp h j Hj), Hint. reflexivity.
Qed.

(** One event keeps every task in its place, with what it captured; it can
    stop a task, never start one again. *)
Lemma handle_keeps_tasks (e : Event) (s : Server) (h : nat) (j : Job) :
  jobs s !! h = Some j →
  ∃ j', jobs (fst (handle cron_validate e s)) !! h = Some j'
        ∧ (j' = j ∨ j' = stopped j).
Proof.
  intros Hj. destruct e as [b now|b|now|k tm r ts|token r now]; cbn [handle].
  - unfold subscribe.
    destruct (negb _ || negb _); [eauto|].
    destruct (req_token b) as [token|]; [|eauto].
    destruct (req_intervalMinutes b) as [n|]; [|eauto].
    set (s0 := set_subscriptions _ s).
    destruct (scheduleNotification_keeps token (parseInt n) s0 h j Hj) as (j' & Hj' & Hor).
    exists j'. split; [|exact Hor].
    destruct (scheduleNotification cron_validate token (parseInt n) s0) as [s2 []];
      exact Hj'.
  - unfold unsubscribe. destruct (negb _); [eauto|].
    destruct (req_token b); eauto.
  - eauto.
  - unfold cron_fire. destruct (jobs s !! k) as [jk|]; [|eauto].
    destruct (job_running jk); [|eauto]. cbn [sendNotification fst].
    unfold settle. destruct r; [destruct (subscriptions s !! _)|destruct (invalid_token _)];
      eauto.
  - cbn [fst]. unfold settle.
    destruct r; [destruct (subscriptions s !! _)|destruct (invalid_token _)]; eauto.
Qed.

(** Whatever happens to the relay, a task object is never removed and never
    changes its token, interval or expression, and a task that has been
    stopped never fires again. *)
Theorem stopped_task_stays_stopped (s : Server) (events : list Event)
    (h : nat) (j : Job) :
  jobs s !! h = Some j →
  ∃ j', jobs (run cron_validate events s) !! h = Some j'
        ∧ job_token j' = job_token j
        ∧ job_interval j' = job_interval j
        ∧ job_expression j' = job_expression j
        ∧ (job_running j = false →
           job_running j' = false
           ∧ ∀ t_message r t_settle,
               cron_fire h t_message r t_settle (run cron_validate events s)
               = (run cron_validate events s, [])).
Proof.
  revert s j. induction events as [|e rest IH]; intros s j Hj.
  - cbn [run]. exists j. split_and!; try reflexivity; [exact Hj|].
    intros Hstop. split; [exact Hstop|]. intros tm r ts.
    unfold cron_fire. rewrite Hj, Hstop. reflexivity.
  - cbn [run]. destruct (handle_keeps_tasks e s h j Hj) as (j1 & Hj1 & Hor).
    destruct (IH _ j1 Hj1) as (j' & Hj' & Ht & Hi & He & Hs).
    exists j'. destruct Hor as [->| ->].
    + split_and!; assumption.
    + split_and!; try assumption. intros _. apply Hs. reflexivity.
Qed.

(** A request that lacks a token or an interval (missing, the empty string,
    zero) is answered with status 400 and changes nothing, on both POST
    routes. *)
Theorem refused_requests_change_nothing (b : Body) (now : Z) (s : Server) :
  (req_token b = None ∨ req_token b = Some ""%string
   ∨ req_intervalMinutes b = None ∨ req_intervalMinutes b = Some 0 →
   subscribe cron_validate b now s
   = (s, [HttpResponse (failure 400 "Token and intervalMinutes are required")]))
  ∧ (req_token b = None ∨ req_token b = Some ""%string →
     unsubscribe b s = (s, [HttpResponse (failure 400 "Token is required")])).
Proof.
  split.
  - intros H. unfold subscribe.
    assert (negb (truthy_string (req_token b))
            || negb (truthy_number (req_intervalMinutes b)) = true) as ->;
      [|reflexivity].
    destruct H as [->|[->|[->| ->]]]; cbn; rewrite ?orb_true_r; reflexivity.
  - intros H. unfold unsubscribe.
    assert (negb (truthy_string (req_token b)) = true) as ->; [|reflexivity].
    destruct H as [->| ->]; reflexivity.
Qed.


(** [POST /api/unsubscribe] with a token answers with status 200 whether or
    not the token is subscribed; for a token that is not, the relay is left
    as it was; a second unsubscribe in a row changes nothing any more. *)
Theorem unsubscribe_idempotent (s : Server) (token : string) :
  token ≠ ""%string →
  let b := {| req_token := Some token; req_intervalMinutes := None |} in
  let r1 := unsubscribe b s in
  let r2 := unsubscribe b (fst r1) in
  snd r1 = [HttpResponse (ok "Unsubscribed successfully")]
  ∧ r2 = r1
  ∧ (subscriptions s !! token = None → fst r1 = s).
Proof.
  intros Ht b r1 r2. subst r2 r1 b. unfold unsubscribe. cbn [req_token].
  apply truthy_string_Some in Ht. rewrite Ht. cbn [negb fst snd].
  split_and!.
  - reflexivity.
  - unfold set_subscriptions. cbn [subscriptions tasks jobs].
    rewrite delete_delete_eq. reflexivity.
  - intros Hnone. unfold set_subscriptions.
    rewrite delete_id by exact Hnone. destruct s; reflexivity.
Qed.

(** A send that succeeds changes one thing: the [lastSent] of the token's
    subscription.  Its interval, every other subscription, the count and the
    tasks stay; for a token that is not subscribed (any more) nothing
    changes, and no subscription appears. *)
Theorem resolved_send_updates_lastSent (s : Server) (token : string)
    (n t_message : Z) (response : string) (now : Z) :
  let r := sendNotification token n t_message (Resolved response) now s in
  snd r = [FcmSend (message_of token n t_message)]
  ∧ subscriptions (fst r) !! token
    = (λ subscription, {| intervalMinutes := intervalMinutes subscription;
                          lastSent := now |}) <$> subscriptions s !! token
  ∧ (∀ other, other ≠ token →
       subscriptions (fst r) !! other = subscriptions s !! other)
  ∧ health_count (fst r) = health_count s
  ∧ tasks (fst r) = tasks s
  ∧ jobs (fst r) = jobs s
  ∧ (subscriptions s !! token = None → fst r = s).
Proof.
  intros r. subst r. unfold sendNotification, settle. cbn [fst snd].
  destruct (subscriptions s !! token) as [sub|] eqn:E.
  - cbn [set_subscriptions subscriptions tasks jobs]. split_and!; try reflexivity.
    + apply lookup_insert_eq.
    + intros other Hne. apply lookup_insert_ne. congruence.
    + unfold health_count. cbn [subscriptions set_subscriptions].
      rewrite map_size_insert, E. reflexivity.
    + discriminate.
  - split_and!; try reflexivity. exact E.
Qed.




End Cron.


Lemma one_scheduled_task_per_token_witness :
  let accept := λ _ : string, true in
  let s1 := fst (subscribe accept
                   {| req_token := Some "abc"%string;
                      req_intervalMinutes := Some 15 |} 1 init) in
  let s := fst (subscribe accept
                  {| req_token := Some "abc"%string;
                     req_intervalMinutes := Some 30 |} 2 s1) in
  let j := {| job_expression := cronExpression 30; job_token := "abc";
              job_interval := 30; job_running := true |} in
  reachable accept s
  ∧ jobs s !! 1%nat = Some j
  ∧ job_running j = true
  ∧ tasks s !! "abc"%string = Some 1%nat.
Proof.
  intros accept s1 s j.
  assert (reachable accept s) as Hr.
  { exact (reachable_handle accept
             (Subscribe {| req_token := Some "abc"%string;
                           req_intervalMinutes := Some 30 |} 2) _
             (reachable_handle accept
                (Subscribe {| req_token := Some "abc"%string;
                              req_intervalMinutes := Some 15 |} 1)
                init (reachable_init accept))). }
  assert (jobs s !! 1%nat = Some j) as Hj by reflexivity.
  split_and!; [exact Hr | exact Hj | reflexivity |].
  exact (proj2 (one_scheduled_task_per_token accept s 1 1 j j Hr Hj eq_refl Hj eq_refl
                  eq_refl)).
Defined.

Lemma fired_interval_is_stored_witness :
  let accept := λ _ : string, true in
  let s := fst (subscribe accept
                  {| req_token := Some "abc"%string;
                     req_intervalMinutes := Some 15 |} 1 init) in
  let j := {| job_expression := cronExpression 15; job_token := "abc";
              job_interval := 15; job_running := true |} in
  reachable accept s
  ∧ jobs s !! 0%nat = Some j
  ∧ job_running j = true
  ∧ subscriptions s !! job_token j = Some {| intervalMinutes := 15; lastSent := 1 |}
  ∧ snd (cron_fire 0 9 (Resolved "m1") 10 s) = [FcmSend (message_of "abc" 15 9)].
Proof.
  intros accept s j.
  assert (reachable accept s) as Hr
    by exact (reachable_handle accept
                (Subscribe {| req_token := Some "abc"%string;
                              req_intervalMinutes := Some 15 |} 1)
                init (reachable_init accept)).
  assert (jobs s !! 0%nat = Some j) as Hj by reflexivity.
  assert (subscriptions s !! job_token j
          = Some {| intervalMinutes := 15; lastSent := 1 |}) as Hsub
    by apply lookup_insert_eq.
  split_and!; [exact Hr | exact Hj | reflexivity | exact Hsub |].
  exact (proj1 (fired_interval_is_stored accept s 0 j _ 9 (Resolved "m1") 10
                  Hr Hj eq_refl Hsub)).
Defined.

Lemma stopped_task_stays_stopped_witness :
  let accept := λ _ : string, true in
  let s1 := fst (subscribe accept
                   {| req_token := Some "abc"%string;
                      req_intervalMinutes := Some 15 |} 1 init) in
  let s := fst (subscribe accept
                  {| req_token := Some "abc"%string;
                     req_intervalMinutes := Some 30 |} 2 s1) in
  let j := {| job_expression := cronExpression 15; job_token := "abc";
              job_interval := 15; job_running := false |} in
  let events := [Unsubscribe {| req_token := Some "abc"%string;
                                req_intervalMinutes := None |};
                 Subscribe {| req_token := Some "abc"%string;
                              req_intervalMinutes := Some 15 |} 3] in
  jobs s !! 0%nat = Some j
  ∧ job_running j = false
  ∧ cron_fire 0 9 (Resolved "m1") 10 (run accept events s) = (run accept events s, []).
Proof.
  intros accept s1 s j events.
  assert (jobs s !! 0%nat = Some j) as Hj by reflexivity.
  split_and!; [exact Hj | reflexivity |].
  destruct (stopped_task_stays_stopped accept s events 0 j Hj)
    as (j' & _ & _ & _ & _ & Hs).
  exact (proj2 (Hs eq_refl) 9 (Resolved "m1") 10).
Defined.

Lemma refused_requests_change_nothing_witness :
  let accept := λ _ : string, true in
  let b := {| req_token := Some ""%string; req_intervalMinutes := Some 5 |} in
  req_token b = Some ""%string
  ∧ subscribe accept b 1 init
    = (init, [HttpResponse (failure 400 "Token and intervalMinutes are required")])
  ∧ unsubscribe b init = (init, [HttpResponse (failure 400 "Token is required")]).
Proof.
  intros accept b.
  pose proof (refused_requests_change_nothing accept b 1 init) as [H1 H2].
  split_and!; [reflexivity | |].
  - exact (H1 (or_intror (or_introl eq_refl))).
  - exact (H2 (or_intror eq_refl)).
Defined.


Lemma unsubscribe_idempotent_witness :
  let b := {| req_token := Some "abc"%string; req_intervalMinutes := None |} in
  "abc"%string ≠ ""%string
  ∧ subscriptions init !! "abc"%string = None
  ∧ fst (unsubscribe b init) = init
  ∧ unsubscribe b (fst (unsubscribe b init)) = unsubscribe b init.
Proof.
  intros b.
  assert ("abc"%string ≠ ""%string) as Ht by discriminate.
  pose proof (unsubscribe_idempotent init "abc" Ht) as H.
  split_and!; [exact Ht | apply lookup_empty | | exact (proj1 (proj2 H))].
  exact (proj2 (proj2 H) (lookup_empty _)).
Defined.

Lemma resolved_send_updates_lastSent_witness :
  subscriptions init !! "abc"%string = None
  ∧ fst (sendNotification "abc" 15 9 (Resolved "m1") 10 init) = init.
Proof.
  split; [apply lookup_empty|].
  exact (proj2 (proj2 (proj2 (proj2 (proj2 (proj2
    (resolved_send_updates_lastSent init "abc" 15 9 "m1" 10))))))
    (lookup_empty _)).
Defined.

End RelayMore.


(* ===================================================================== *)
(** ** The earlier worker keeps one timer *)
(* ===================================================================== *)

Module EarlierWorkerFacts.

Import EarlierWorker.

Local Open Scope Z_scope.

Lemma earlier_stop_fields (w : Worker) :
  notificationInterval (stopNotificationSchedule w) = None
  ∧ notificationTimer (stopNotificationSchedule w) = None
  ∧ timers (stopNotificationSchedule w)
    = match notificationTimer w with
      | Some id => delete id (timers w)
      | None => timers w
      end.
Proof.
  unfold stopNotificationSchedule. destruct (notificationTimer w) eqn:E; cbn; auto.
Qed.

Lemma earlier_coherent_stop (w : Worker) :
  coherent w → timers (stopNotificationSchedule w) = ∅.
Proof.
  destruct (earlier_stop_fields w) as (_ & _ & ->). unfold coherent.
  destruct (notificationTimer w) as [id|].
  - intros (i & _ & ->). apply delete_singleton_eq.
  - intros (_ & ->). reflexivity.
Qed.

Lemma earlier_handle_coherent (e : Event) (w : Worker) :
  coherent w → coherent (fst (handle e w)).
Proof.
  intros H. pose proof (earlier_coherent_stop w H) as Hs.
  destruct (earlier_stop_fields w) as (Hi & Ht & _).
  destruct e as [m|id]; [|exact H].
  destruct m as [i| | |]; cbn [handle on_message fst]; try exact H.
  - unfold startNotificationSchedule, coherent. cbn [fst notificationTimer
      notificationInterval timers]. exists i. rewrite Hs. auto.
  - unfold coherent. rewrite Ht, Hi, Hs. auto.
Qed.

Lemma earlier_reachable_coherent (w : Worker) : reachable w → coherent w.
Proof.
  induction 1 as [|e w _ IH].
  - split; reflexivity.
  - apply earlier_handle_coherent, IH.
Qed.

(** In every state the earlier worker reaches, a live timer is the one held
    in [notificationTimer] and its period is the current interval in
    milliseconds; there is a timer exactly when there is an interval. *)
Theorem earlier_one_timer (w : Worker) :
  reachable w →
  (notificationTimer w = None ↔ notificationInterval w = None)
  ∧ ∀ id period,
      timers w !! id = Some period →
      notificationTimer w = Some id
      ∧ ∃ i, notificationInterval w = Some i ∧ period = i * 60000.
Proof.
  intros Hr. pose proof (earlier_reachable_coherent w Hr) as Hco.
  unfold coherent in Hco. destruct (notificationTimer w) as [id'|].
  - destruct Hco as (i & Hi & Ht). split.
    + rewrite Hi. split; discriminate.
    + intros id period Hid. rewrite Ht in Hid.
      apply lookup_singleton_Some in Hid as [-> <-].
      split; [reflexivity|]. exists i. split; [exact Hi | lia].
  - destruct Hco as (Hi & Ht). split.
    + rewrite Hi. tauto.
    + intros id period Hid. rewrite Ht, lookup_empty in Hid. discriminate.
Qed.

Lemma earlier_one_timer_witness :
  let w1 := fst (startNotificationSchedule 5 init) in
  let w := fst (startNotificationSchedule 15 w1) in
  reachable w
  ∧ timers w !! 2%positive = Some 900000
  ∧ notificationTimer w = Some 2%positive.
Proof.
  intros w1 w.
  assert (reachable w) as Hr.
  { exact (reachable_handle (MessageEvent (ServiceWorker.START_NOTIFICATIONS 15)) _
             (reachable_handle (MessageEvent (ServiceWorker.START_NOTIFICATIONS 5))
                init reachable_init)). }
  assert (timers w !! 2%positive = Some 900000) as Hid by reflexivity.
  split_and!; [exact Hr | exact Hid |].
  exact (proj1 (proj2 (earlier_one_timer w Hr) 2%positive 900000 Hid)).
Defined.

(** After [stopNotificationSchedule] of the earlier worker, and until the
    next [START_NOTIFICATIONS], no message and no timer wake-up has any
    effect: nothing is shown and the worker stays as it is. *)
Theorem earlier_stop_then_silence (w : Worker) (events : list Event) :
  reachable w →
  Forall (λ e, is_start e = false) events →
  run events (stopNotificationSchedule w) = (stopNotificationSchedule w, []).
Proof.
  intros Hr Hall.
  destruct (earlier_stop_fields w) as (Hi & Ht & _).
  pose proof (earlier_coherent_stop w (earlier_reachable_coherent w Hr)) as Hs.
  set (v := stopNotificationSchedule w) in *. clearbody v.
  induction Hall as [|e rest He _ IH]; [reflexivity|].
  assert (handle e v = (v, [])) as Hstep.
  { destruct e as [m|id].
    - destruct m as [i| | |]; [discriminate|..]; cbn [handle on_message]; try reflexivity.
      unfold stopNotificationSchedule. rewrite Ht.
      destruct v as [a b c d]. cbn in Hi. subst. reflexivity.
    - cbn [handle]. unfold timer_fire. rewrite Hs, lookup_empty. reflexivity. }
  cbn [run]. rewrite Hstep. cbn [fst snd]. rewrite IH. reflexivity.
Qed.

Lemma earlier_stop_then_silence_witness :
  let w := fst (startNotificationSchedule 5 init) in
  let events := [TimerEvent 1%positive;
                 MessageEvent ServiceWorker.CHECK_SCHEDULE;
                 TimerEvent 1%positive] in
  reachable w
  ∧ Forall (λ e, is_start e = false) events
  ∧ run events (stopNotificationSchedule w) = (stopNotificationSchedule w, []).
Proof.
  intros w events.
  assert (reachable w) as Hr
    by exact (reachable_handle (MessageEvent (ServiceWorker.START_NOTIFICATIONS 5))
                init reachable_init).
  assert (Forall (λ e, is_start e = false) events) as Hall by (repeat constructor).
  split_and!; [exact Hr | exact Hall |].
  exact (earlier_stop_then_silence w events Hr Hall).
Defined.

End EarlierWorkerFacts.


(* ===================================================================== *)
(** ** The page's token and the relay *)
(* ===================================================================== *)

Module PageFacts.

Import Page.

Local Open Scope Z_scope.

(** [getFCMToken] returns a token only in a window, with a messaging
    instance, when [getToken] resolved to it, and never an empty one. *)
Lemma getFCMToken_Some (hasWindow : bool) (m : GetMessaging) (t : GetToken)
    (token : string) :
  getFCMToken hasWindow m t = Some token ↔
  hasWindow = true ∧ m = MessagingReady ∧ t = TokenResolved token
  ∧ token ≠ ""%string.
Proof.
  unfold getFCMToken, getMessagingInstance.
  destruct hasWindow, m, t as [tok|]; cbn; try (split; [discriminate|]; intros (? & ? & ? & ?); discriminate).
  destruct (String.eqb tok "") eqn:E; cbn.
  - apply String.eqb_eq in E. subst tok. split; [discriminate|].
    intros (_ & _ & [= <-] & Hne). contradiction.
  - apply String.eqb_neq in E. split.
    + intros [= <-]. auto.
    + intros (_ & _ & [= <-] & _). reflexivity.
Qed.

Section Cron.

Variable cron_validate : string → bool.

(** A token that [getFCMToken] returned is not empty.  So the handler of
    [POST /api/subscribe], given the body that [subscribeToBackend] builds
    from such a token and a non-zero interval (below 10^21 in magnitude),
    never answers with status 400: it stores the subscription under the
    token, and answers 200 when the cron library accepts the interval's
    expression and 500 when it does not. *)
Theorem page_token_accepted (hasWindow : bool) (m : GetMessaging) (t : GetToken)
    (fcmToken : string) (intervalMinutes now : Z) (s : Relay.Server) :
  getFCMToken hasWindow m t = Some fcmToken →
  intervalMinutes ≠ 0 →
  Z.abs intervalMinutes < 10 ^ 21 →
  let r := Relay.subscribe cron_validate
             (subscribe_body fcmToken intervalMinutes) now s in
  fcmToken ≠ ""%string
  ∧ snd r
    = [Relay.HttpResponse
         (if cron_validate (Relay.cronExpression intervalMinutes)
          then Relay.ok "Subscribed successfully"
          else Relay.failure 500 "Failed to subscribe")]
  ∧ Relay.subscriptions (fst r) !! fcmToken
    = Some {| Relay.intervalMinutes := intervalMinutes; Relay.lastSent := now |}.
Proof.
  intros Htok Hn _ r.
  apply getFCMToken_Some in Htok as (_ & _ & _ & Hne).
  split; [exact Hne|]. subst r. unfold subscribe_body.
  destruct (cron_validate (Relay.cronExpression intervalMinutes)) eqn:Hv.
  - rewrite (RelayFacts.subscribe_accepted cron_validate fcmToken intervalMinutes
               now s Hne Hn Hv).
    split; [reflexivity | apply lookup_insert_eq].
  - unfold Relay.subscribe. cbn [Relay.req_token Relay.req_intervalMinutes].
    apply RelayFacts.truthy_string_Some in Hne.
    apply RelayFacts.truthy_number_Some in Hn.
    rewrite Hne, Hn. cbn [negb orb]. unfold Relay.parseInt.
    pose proof (RelayFacts.scheduleNotification_subscriptions cron_validate fcmToken
                  intervalMinutes
                  (Relay.set_subscriptions
                     (<[fcmToken := {| Relay.intervalMinutes := intervalMinutes;
                                       Relay.lastSent := now |}]>
                        (Relay.subscriptions s)) s)) as Hkeep.
    unfold Relay.scheduleNotification in *. rewrite Hv in *.
    cbn [fst snd] in *. rewrite Hkeep.
    split; [reflexivity | apply lookup_insert_eq].
Qed.

End Cron.

Lemma page_token_accepted_witness :
  let every_minute_only := λ e : string, String.eqb e "* * * * *" in
  let r := Relay.subscribe every_minute_only (subscribe_body "abc" 5) 1 Relay.init in
  getFCMToken true MessagingReady (TokenResolved "abc") = Some "abc"%string
  ∧ 5 ≠ 0
  ∧ Z.abs 5 < 10 ^ 21
  ∧ snd r = [Relay.HttpResponse (Relay.failure 500 "Failed to subscribe")]
  ∧ Relay.subscriptions (fst r) !! "abc"%string
    = Some {| Relay.intervalMinutes := 5; Relay.lastSent := 1 |}.
Proof.
  intros every_minute_only r.
  assert (5 ≠ 0) as Hn by discriminate.
  assert (Z.abs 5 < 10 ^ 21) as Hb by reflexivity.
  pose proof (page_token_accepted every_minute_only true MessagingReady
                (TokenResolved "abc") "abc" 5 1 Relay.init eq_refl Hn Hb) as H.
  split_and!; [reflexivity | exact Hn | exact Hb | exact (proj1 (proj2 H))
               | exact (proj2 (proj2 H))].
Defined.

End PageFacts.
